(** * coa202ser: the serial test harness of the parking management system

    A shallow embedding of [coa202ser.py] and the properties of its
    handshake, its response classification and its session loop.

    The script is one straight-line module: it parses the command line,
    opens the serial port, synchronises with the board, and then sends a
    fixed list of messages, waiting after each one for a line tagged
    [ERROR:] or [DONE!].  The serial port is an external collaborator, so
    it is an interface here ([Transport]); every effect of the script on it
    and on standard output is recorded in a trace. *)

From Stdlib Require Import List Bool Arith ZArith Lia.
From Stdlib.Strings Require Import String Ascii Byte.
Import ListNotations.

Local Open Scope list_scope.

(** ** Python values *)

Module Py.

(** [bytes] objects are byte lists, [str] objects are strings.  Every
    character this development meets is ASCII text: a [str] made from a
    [bytes] object is its [repr], which is printable ASCII. *)
Definition bytes := list byte.

Definition b (s : string) : bytes := list_byte_of_string s.

(** The objects the script handles: what [ser.read] and [ser.readline]
    return is a [bytes] object for a serial port; a test double may hand
    back [str] objects, and the script only ever applies [str()] and [==]
    to the result. *)
Inductive obj : Type :=
| Bytes (bs : bytes)
| Str (s : string).

Definition squote : ascii := "039"%char.
Definition dquote : ascii := "034"%char.
Definition backslash : ascii := "092"%char.
Definition newline : byte := "010"%byte.

Definition hexdigits : list ascii := list_ascii_of_string "0123456789abcdef".

Definition hexdigit (n : nat) : ascii := nth n hexdigits "0"%char.

Definition has_char (c : ascii) (bs : bytes) : bool :=
  existsb (fun x => Ascii.eqb (ascii_of_byte x) c) bs.

(** The quote [repr] picks: a single quote, unless the bytes hold a
    single quote and no double quote. *)
Definition repr_quote (bs : bytes) : ascii :=
  if has_char squote bs && negb (has_char dquote bs) then dquote else squote.

Definition repr_byte (quote : ascii) (x : byte) : string :=
  let c := ascii_of_byte x in
  let n := Byte.to_nat x in
  if Ascii.eqb c quote || Ascii.eqb c backslash then String backslash (String c EmptyString)
  else if Ascii.eqb c "009"%char then String backslash "t"
  else if Ascii.eqb c "010"%char then String backslash "n"
  else if Ascii.eqb c "013"%char then String backslash "r"
  else if (n <? 32) || (127 <=? n)
       then String backslash
              (String "x" (String (hexdigit (n / 16)) (String (hexdigit (n mod 16)) EmptyString)))
  else String c EmptyString.

(** [repr(bs)], which is also [str(bs)]. *)
Definition repr_bytes (bs : bytes) : string :=
  let q := repr_quote bs in
  String "b" (String q (concat EmptyString (map (repr_byte q) bs) ++ String q EmptyString))%string.

(** [str(o)] *)
Definition str (o : obj) : string :=
  match o with
  | Bytes bs => repr_bytes bs
  | Str s => s
  end.

(** [o == b'...'] for a bytes literal: a [str] never equals a [bytes]. *)
Definition eq_bytes (o : obj) (lit : bytes) : bool :=
  match o with
  | Bytes bs => if list_eq_dec Byte.byte_eq_dec bs lit then true else false
  | Str _ => false
  end.

(** Truth value of [o]: empty [bytes] and empty [str] are false. *)
Definition truthy (o : obj) : bool :=
  match o with
  | Bytes [] => false
  | Str EmptyString => false
  | _ => true
  end.

(** [s[lo:hi]] for literal bounds [0 <= lo <= hi]: the slice is clipped
    to the string, it never raises. *)
Definition slice (lo hi : nat) (s : string) : string := substring lo (hi - lo) s.

Definition is_lower (c : ascii) : bool :=
  (97 <=? nat_of_ascii c) && (nat_of_ascii c <=? 122).

Definition upper_char (c : ascii) : ascii :=
  if is_lower c then ascii_of_nat (nat_of_ascii c - 32) else c.

Definition is_upper (c : ascii) : bool :=
  (65 <=? nat_of_ascii c) && (nat_of_ascii c <=? 90).

Definition lower_char (c : ascii) : ascii :=
  if is_upper c then ascii_of_nat (nat_of_ascii c + 32) else c.

(** [s.upper()] and [s.lower()] on ASCII text: the letters a-z and A-Z
    change case, every other character below 128 stays.  The lines the
    script uppercases come out of [str(bytes)], which holds no character
    beyond 127. *)
Fixpoint upper (s : string) : string :=
  match s with
  | EmptyString => EmptyString
  | String c s' => String (upper_char c) (upper s')
  end.

Fixpoint lower (s : string) : string :=
  match s with
  | EmptyString => EmptyString
  | String c s' => String (lower_char c) (lower s')
  end.

End Py.

(** ** Response classification

    The four ways the waiting loop treats a line.  The script has no
    classifier function: the classes are the branches of its [if]/[elif]
    chain, and [classify] names the branch a line takes. *)

Inductive ResponseClass : Type :=
| Debug
| Error
| Done
| Unrecognized.

Definition classify (line : string) : ResponseClass :=
  if String.eqb (Py.upper (Py.slice 2 8 line)) "DEBUG:" then Debug
  else if String.eqb (Py.upper (Py.slice 2 8 line)) "ERROR:" then Error
  else if String.eqb (Py.upper (Py.slice 2 7 line)) "DONE!" then Done
  else Unrecognized.

Definition terminal (c : ResponseClass) : bool :=
  match c with
  | Error | Done => true
  | Debug | Unrecognized => false
  end.

(** ** The command line and the port settings *)

(** What the command line supplies for the two positionals, both declared
    with [nargs='?']: [port] (a [str]) and [timeout] (an [int]). *)
Record cmdline : Type := {
  given_port : option string;
  given_timeout : option Z
}.

(** The namespace [parser.parse_args()] returns: [port] has no default, so
    it is [None] when omitted; [timeout] has [default=1]. *)
Record Namespace : Type := {
  port : option string;
  timeout : Z
}.

Definition parse_args (c : cmdline) : Namespace :=
  {| port := given_port c;
     timeout := match given_timeout c with
                | Some t => t
                | None => 1%Z
                end |}.

(** The arguments of [serial.Serial(...)]. *)
Record settings : Type := {
  device : option string;
  baudrate : Z;
  read_timeout : Z;
  rtscts : bool;
  xonxoff : bool;
  dsrdtr : bool
}.

Definition serial_settings (args : Namespace) : settings :=
  {| device := port args;
     baudrate := 9600%Z;
     read_timeout := timeout args;
     rtscts := false;
     xonxoff := false;
     dsrdtr := false |}.

(** ** The transport, traces and the script's monad *)

(** The exceptions the calls on the port can raise.  [SerialException]
    stands for pyserial's own exception and its subclasses, among them the
    [PortNotOpenError] of a port that was never opened; [ValueError] and
    [OverflowError] are what a timeout out of range is met with. *)
Inductive exn : Type :=
| SerialException
| ValueError
| OverflowError.

(** The serial port as the script uses it.  Each operation may raise. *)
Class Transport (T : Type) : Type := {
  ser_open : settings -> T -> (exn + unit) * T;
  ser_read : nat -> T -> (exn + Py.obj) * T;
  ser_readline : T -> (exn + Py.obj) * T;
  ser_write : Py.bytes -> T -> (exn + unit) * T
}.

(** What an observer of the port and of standard output sees. *)
Inductive event : Type :=
| Opened (cfg : settings)
| GotBytes (size : nat) (o : Py.obj)
| GotLine (o : Py.obj)
| Wrote (bs : Py.bytes)
| Printed (s : string).

(** How a run of a piece of the script ends.  [Unfinished] is a [while]
    loop that is still running when the fuel is spent. *)
Inductive outcome (A : Type) : Type :=
| Returned (a : A)
| Raised (e : exn)
| Unfinished.

Arguments Returned {A} a.
Arguments Raised {A} e.
Arguments Unfinished {A}.

Record machine (T : Type) : Type := {
  ser : T;
  trace : list event
}.

Arguments ser {T} m.
Arguments trace {T} m.

Definition M (T A : Type) : Type := machine T -> outcome A * machine T.

Definition ret {T A : Type} (a : A) : M T A := fun m => (Returned a, m).

Definition bind {T A B : Type} (c : M T A) (k : A -> M T B) : M T B :=
  fun m =>
    match c m with
    | (Returned a, m') => k a m'
    | (Raised e, m') => (Raised e, m')
    | (Unfinished, m') => (Unfinished, m')
    end.

Definition spin {T A : Type} : M T A := fun m => (Unfinished, m).

Declare Scope script_scope.
Delimit Scope script_scope with script.

Notation "x <- c ;; k" := (bind c (fun x => k))
  (at level 61, c at next level, right associativity) : script_scope.
Notation "c ;; k" := (bind c (fun _ => k))
  (at level 61, right associativity) : script_scope.

Local Open Scope script_scope.

Definition emit {T : Type} (e : event) (m : machine T) (p : T) : machine T :=
  {| ser := p; trace := trace m ++ [e] |}.

(** [print(...)]: one line on standard output. *)
Definition print {T : Type} (s : string) : M T unit :=
  fun m => (Returned tt, emit (Printed s) m (ser m)).

Section Script.

Context {T : Type} `{Transport T}.

Definition Serial (cfg : settings) : M T unit :=
  fun m =>
    match ser_open cfg (ser m) with
    | (inr _, p) => (Returned tt, emit (Opened cfg) m p)
    | (inl e, p) => (Raised e, {| ser := p; trace := trace m |})
    end.

Definition read (size : nat) : M T Py.obj :=
  fun m =>
    match ser_read size (ser m) with
    | (inr o, p) => (Returned o, emit (GotBytes size o) m p)
    | (inl e, p) => (Raised e, {| ser := p; trace := trace m |})
    end.

Definition readline : M T Py.obj :=
  fun m =>
    match ser_readline (ser m) with
    | (inr o, p) => (Returned o, emit (GotLine o) m p)
    | (inl e, p) => (Raised e, {| ser := p; trace := trace m |})
    end.

Definition write (bs : Py.bytes) : M T unit :=
  fun m =>
    match ser_write bs (ser m) with
    | (inr _, p) => (Returned tt, emit (Wrote bs) m p)
    | (inl e, p) => (Raised e, {| ser := p; trace := trace m |})
    end.

(** *** Opening the port *)

Definition show_port (p : option string) : string :=
  match p with
  | Some s => s
  | None => "None"
  end.

Definition connect (args : Namespace) : M T unit :=
  print ("connecting to port " ++ show_port (port args));;
  Serial (serial_settings args).

(** *** The handshake *)

(** [while going: s = ser.read(1); if s == b'Q': going = False] *)
Fixpoint sync (fuel : nat) : M T unit :=
  match fuel with
  | O => spin
  | S fuel' =>
      s <- read 1;;
      if Py.eq_bytes s (Py.b "Q") then ret tt else sync fuel'
  end.

Definition handshake (fuel : nat) : M T Py.obj :=
  print "waiting for sync";;
  sync fuel;;
  write (Py.b "X");;
  print "Sync";;
  line <- readline;;
  print (Py.str line);;
  ret line.

(** *** The session loop *)

(** The body of [while(still_reading)]; it returns the new value of
    [still_reading]. *)
Definition poll : M T bool :=
  o <- readline;;
  let line := Py.str o in
  if String.eqb (Py.upper (Py.slice 2 8 line)) "DEBUG:" then
    print ("Read:  " ++ line);; ret true
  else if String.eqb (Py.upper (Py.slice 2 8 line)) "ERROR:" then
    print ("Read:  " ++ line);; ret false
  else if String.eqb (Py.upper (Py.slice 2 7 line)) "DONE!" then
    ret false
  else ret true.

Fixpoint await (fuel : nat) : M T unit :=
  match fuel with
  | O => spin
  | S fuel' =>
      still_reading <- poll;;
      if still_reading then await fuel' else ret tt
  end.

(** One turn of [for msg in msgs]. *)
Definition exchange (fuel : nat) (msg : Py.bytes) : M T unit :=
  print ("Write: " ++ Py.str (Py.Bytes msg));;
  write (msg ++ [Py.newline]);;
  await fuel.

Fixpoint session (fuel : nat) (msgs : list Py.bytes) : M T unit :=
  match msgs with
  | [] => ret tt
  | msg :: rest => exchange fuel msg;; session fuel rest
  end.

End Script.

(** *** The messages and the whole script *)

Definition msgs : list Py.bytes :=
  map Py.b
    [ "A-GR04XFB-C-GranbySt."; "A-GF57XWD-B-BeehiveLane"; "A-BD51SMR-V-BrownsLane";
      "S-GR04XFB-PD"; "T-GR04XFB-B"; "L-GF57XWD-Southfield"; "S-GF57XWD-1";
      "L-CU57ABC-BeehiveLane"; "L-GR04XFB-BrownsLane"; "S-BD51SMR-PD";
      "L-BD51SMR-BrownsLane"; "A-CU57ABC-C-BedfordSquare"; "A-CU57ABC-BedfordSq.";
      "A-CU57ABC-C-BedfordSquare"; "A-CU57ABC-C-"; "A-CU57ABC-M-BedfordSq.";
      "A-GR04XFB-B-BrownsLane"; "Z-GR04XFB-BrownsLane"; "ACU57ABC-V-BrownsLane";
      "A-GF23WSN- L- BrownsLane" ]%string.

Definition main {T : Type} `{Transport T} (fuel : nat) (c : cmdline) : M T unit :=
  connect (parse_args c);;
  handshake fuel;;
  session fuel msgs.

(** ** Two transports *)

(** A scripted port, as a test double: each read of either kind is answered
    by the next entry of the script, a reply or a failure; writes succeed
    and change nothing.  Once the script is used up the port is silent:
    every read times out and returns [b'']. *)
Definition script : Type := list (exn + Py.obj).

Definition script_next (s : script) : (exn + Py.obj) * script :=
  match s with
  | [] => (inr (Py.Bytes []), [])
  | r :: s' => (r, s')
  end.

#[export] Instance scripted : Transport script := {|
  ser_open := fun _ s => (inr tt, s);
  ser_read := fun _ s => script_next s;
  ser_readline := script_next;
  ser_write := fun _ s => (inr tt, s)
|}.

Definition says (lines : list string) : script := map (fun l => inr (Py.Str l)) lines.

(** The receiving side of a serial line, as pyserial presents it: bytes
    arrive one at a time, [Quiet] is a silence that outlasts the read
    timeout, [Unplugged] a port that cannot be used from there on, because
    the device has gone or because the port was never opened: every read
    and every write then raises a [SerialException].  [ser.read(size)]
    returns the bytes that arrive before the timeout, at most [size];
    [ser.readline()] is [io.IOBase.readline]: it reads byte by byte up to
    and including a newline, or up to a read that returns nothing.  A line
    that has ended stays silent. *)
Inductive signal : Type :=
| Recv (x : byte)
| Quiet
| Unplugged.

Definition wire : Type := list signal.

Definition more (x : byte) (r : (exn + Py.bytes) * wire) : (exn + Py.bytes) * wire :=
  match r with
  | (inr bs, w) => (inr (x :: bs), w)
  | (inl e, w) => (inl e, w)
  end.

Fixpoint wire_read (size : nat) (w : wire) : (exn + Py.bytes) * wire :=
  match size with
  | O => (inr [], w)
  | S size' =>
      match w with
      | [] => (inr [], [])
      | Recv x :: w' => more x (wire_read size' w')
      | Quiet :: w' => (inr [], w')
      | Unplugged :: _ => (inl SerialException, w)
      end
  end.

Fixpoint wire_readline (w : wire) : (exn + Py.bytes) * wire :=
  match w with
  | [] => (inr [], [])
  | Recv x :: w' =>
      if Byte.eqb x Py.newline then (inr [x], w') else more x (wire_readline w')
  | Quiet :: w' => (inr [], w')
  | Unplugged :: _ => (inl SerialException, w)
  end.

Definition as_obj (r : (exn + Py.bytes) * wire) : (exn + Py.obj) * wire :=
  match r with
  | (inr bs, w) => (inr (Py.Bytes bs), w)
  | (inl e, w) => (inl e, w)
  end.

(** The largest timeout, in seconds, that the [select] call behind every
    read can wait for: CPython keeps it as a signed 64-bit count of
    nanoseconds. *)
Definition select_limit : Z := 9223372036.

(** [serial.Serial(port, 9600, timeout=..., ...)] with the board of the
    wire attached at the device named.  A negative timeout is refused with
    [ValueError]; with no device named nothing is opened, and the port
    handed back fails at its first use, with [PortNotOpenError]; a timeout
    beyond [select_limit] cannot be waited for, which pyserial meets with
    [OverflowError] at the first read: no read being possible on such a
    port, it is refused here at once. *)
Definition wire_open (cfg : settings) (w : wire) : (exn + unit) * wire :=
  if (read_timeout cfg <? 0)%Z then (inl ValueError, w)
  else match device cfg with
       | None => (inr tt, Unplugged :: w)
       | Some _ =>
           if (select_limit <? read_timeout cfg)%Z then (inl OverflowError, w)
           else (inr tt, w)
       end.

(** [ser.write(bs)]: the bytes leave, unless the port cannot be used. *)
Definition wire_write (bs : Py.bytes) (w : wire) : (exn + unit) * wire :=
  match w with
  | Unplugged :: _ => (inl SerialException, w)
  | _ => (inr tt, w)
  end.

#[export] Instance pyserial : Transport wire := {|
  ser_open := wire_open;
  ser_read := fun size w => as_obj (wire_read size w);
  ser_readline := fun w => as_obj (wire_readline w);
  ser_write := wire_write
|}.

Definition sends (s : string) : wire := map Recv (Py.b s).

Definition boot {T : Type} (p : T) : machine T := {| ser := p; trace := [] |}.

(** ** Reading traces *)

Definition frame (msg : Py.bytes) : Py.bytes := msg ++ [Py.newline].

Definition writes (tr : list event) : list Py.bytes :=
  flat_map (fun e => match e with Wrote bs => [bs] | _ => [] end) tr.

Definition lines_read (tr : list event) : list Py.obj :=
  flat_map (fun e => match e with GotLine o => [o] | _ => [] end) tr.

Definition stdout (tr : list event) : list string :=
  flat_map (fun e => match e with Printed s => [s] | _ => [] end) tr.

(** Whether a message is still awaiting its terminal line at the end of a
    trace, given whether one was at its start. *)
Fixpoint pending (waiting : bool) (tr : list event) : bool :=
  match tr with
  | [] => waiting
  | Wrote _ :: tr' => pending true tr'
  | GotLine o :: tr' => pending (waiting && negb (terminal (classify (Py.str o)))) tr'
  | _ :: tr' => pending waiting tr'
  end.

(** No write happens while an earlier message still awaits its terminal
    line. *)
Fixpoint one_at_a_time (waiting : bool) (tr : list event) : bool :=
  match tr with
  | [] => true
  | Wrote _ :: tr' => negb waiting && one_at_a_time true tr'
  | GotLine o :: tr' =>
      one_at_a_time (waiting && negb (terminal (classify (Py.str o)))) tr'
  | _ :: tr' => one_at_a_time waiting tr'
  end.

(** What one polled line leaves in the trace. *)
Definition heard (o : Py.obj) : list event :=
  match classify (Py.str o) with
  | Debug | Error => [GotLine o; Printed ("Read:  " ++ Py.str o)]
  | Done | Unrecognized => [GotLine o]
  end.

(** A reply list that answers one message: lines that keep the loop
    waiting, then one terminal line. *)
Fixpoint answers (replies : list Py.obj) : bool :=
  match replies with
  | [] => false
  | o :: replies' =>
      if terminal (classify (Py.str o))
      then match replies' with [] => true | _ => false end
      else answers replies'
  end.

(** ** The classifier by positions, as the specification words it *)

(** [tag] stands, in any case, at position 2 of [line]: the character at
    position [2 + i] uppercases to the [i]-th character of [tag]. *)
Definition tag_at (tag line : string) : Prop :=
  forall i, i < String.length tag ->
    option_map Py.upper_char (String.get (2 + i) line) = String.get i tag.

(** ** Error kinds *)

(** The three error kinds of the specification, as one call of
    [ser.readline()] shows them. *)
Inductive error_kind : Type :=
| TransportError
| ProtocolTimeout
| DeviceReportedError.

Definition error_kind_of (r : exn + Py.obj) : option error_kind :=
  match r with
  | inl _ => Some TransportError
  | inr o =>
      if negb (Py.truthy o) then Some ProtocolTimeout
      else match classify (Py.str o) with
           | Error => Some DeviceReportedError
           | _ => None
           end
  end.

(** ** Expected traces *)

(** The trace of a session in which message [i] receives the replies
    [replies[i]]. *)
Fixpoint transcript (messages : list Py.bytes) (replies : list (list Py.obj)) : list event :=
  match messages, replies with
  | msg :: messages', rs :: replies' =>
      Printed ("Write: " ++ Py.str (Py.Bytes msg)) :: Wrote (frame msg)
        :: flat_map heard rs ++ transcript messages' replies'
  | _, _ => []
  end.

Definition replying (rs : list Py.obj) : script := map inr rs.

(** A single-byte read that is not the sentinel. *)
Definition before_sync (e : event) : Prop :=
  exists o, e = GotBytes 1 o /\ Py.eq_bytes o (Py.b "Q") = false.

(** The reading of the specification's sentence on the transcript: every
    occurrence of an error kind at a read adds a line to standard output. *)
Definition every_error_kind_prints : Prop :=
  forall (T : Type) (link : Transport T) (m : machine T) (k : error_kind),
    error_kind_of (fst (ser_readline (ser m))) = Some k ->
    List.length (stdout (trace m)) < List.length (stdout (trace (snd (poll m)))).

(** A port that never fails from the states [good] on: every operation
    succeeds there and leaves the port in such a state.  A piece of script
    is [safe] from those states when it keeps the port in them and never
    ends in an exception. *)
Definition reliable {T : Type} `{Transport T} (good : T -> Prop) : Prop :=
  (forall cfg t, good t -> exists t', ser_open cfg t = (inr tt, t') /\ good t') /\
  (forall size t, good t -> exists o t', ser_read size t = (inr o, t') /\ good t') /\
  (forall t, good t -> exists o t', ser_readline t = (inr o, t') /\ good t') /\
  (forall bs t, good t -> exists t', ser_write bs t = (inr tt, t') /\ good t').

Definition safe {T A : Type} (good : T -> Prop) (c : M T A) : Prop :=
  forall m, good (ser m) ->
            good (ser (snd (c m))) /\ forall e, fst (c m) <> Raised e.

(** A script without failures. *)
Definition replies_only (s : script) : Prop := Forall (fun r => exists o, r = inr o) s.

(** The board boots, sends its sentinel and its extension list, and then
    answers every message with DONE!. *)
Definition obliging_board : wire :=
  sends "..Q" ++ sends "BASIC" ++ [Recv Py.newline] ++
  List.concat (repeat (sends "DONE!" ++ [Recv Py.newline]) (List.length msgs)).

(** ** Lines as the board sends them *)

(** The bytes [bs] begin with [tag], in any case. *)
Definition begins (tag : string) (bs : Py.bytes) : Prop :=
  Py.upper (string_of_list_byte (firstn (String.length tag) bs)) = tag.

(** The characters the three tags are made of. *)
Definition tagchar (c : ascii) : bool :=
  existsb (Ascii.eqb c) (list_ascii_of_string "DEBUG:ERROR:DONE!").

(** What is on the wire ahead of the sentinel: anything but the byte Q,
    silences included, as long as the port holds. *)
Definition noise (s : signal) : Prop := s <> Recv "Q"%byte /\ s <> Unplugged.

(** What a single-byte read of one signal leaves in the trace. *)
Definition seen (s : signal) : event :=
  match s with
  | Recv x => GotBytes 1 (Py.Bytes [x])
  | _ => GotBytes 1 (Py.Bytes [])
  end.

(** The lines of standard output that echo a line read, and the echo the
    lines read call for: one for each [Debug] and each [Error] line. *)
Definition echoes (tr : list event) : list string :=
  filter (String.prefix "Read:  ") (stdout tr).

Definition echo_due (tr : list event) : list string :=
  flat_map (fun e => match e with
                     | GotLine o =>
                         match classify (Py.str o) with
                         | Debug | Error => ["Read:  " ++ Py.str o]%string
                         | Done | Unrecognized => []
                         end
                     | _ => []
                     end) tr.

Ltac run_script :=
  unfold handshake, connect, Serial, bind, print, write, readline, read, emit;
  simpl; rewrite <- ?app_assoc; reflexivity.

(** * Properties *)

(** ** Strings *)

Lemma upper_char_idem (c : ascii) : Py.upper_char (Py.upper_char c) = Py.upper_char c.
Proof. destruct c as [[] [] [] [] [] [] [] []]; reflexivity. Qed.

Lemma upper_lower_char (c : ascii) : Py.upper_char (Py.lower_char c) = Py.upper_char c.
Proof. destruct c as [[] [] [] [] [] [] [] []]; reflexivity. Qed.

Lemma upper_idem (s : string) : Py.upper (Py.upper s) = Py.upper s.
Proof. induction s as [|c s IH]; simpl; [|rewrite upper_char_idem, IH]; reflexivity. Qed.

Lemma upper_lower (s : string) : Py.upper (Py.lower s) = Py.upper s.
Proof. induction s as [|c s IH]; simpl; [|rewrite upper_lower_char, IH]; reflexivity. Qed.

Lemma length_upper (s : string) : String.length (Py.upper s) = String.length s.
Proof. induction s as [|c s IH]; simpl; congruence. Qed.

Lemma get_upper (s : string) :
  forall i, String.get i (Py.upper s) = option_map Py.upper_char (String.get i s).
Proof.
  induction s as [|c s IH]; intros [|i]; simpl; auto.
Qed.

Lemma upper_substring (s : string) :
  forall n m, Py.upper (substring n m s) = substring n m (Py.upper s).
Proof.
  induction s as [|c s IH]; intros [|n] [|m]; simpl; auto.
  now rewrite IH.
Qed.

Lemma upper_slice (lo hi : nat) (s : string) :
  Py.upper (Py.slice lo hi s) = Py.slice lo hi (Py.upper s).
Proof. apply upper_substring. Qed.

Lemma length_substring (s : string) :
  forall n m, String.length (substring n m s) <= String.length s - n.
Proof.
  induction s as [|c s IH]; intros [|n] [|m]; simpl; try lia.
  - specialize (IH 0 m). lia.
  - apply IH.
  - apply IH.
Qed.

Lemma get_beyond (s : string) :
  forall i, String.length s <= i -> String.get i s = None.
Proof.
  induction s as [|c s IH]; intros [|i] Hi; simpl in *; auto; try lia.
  apply IH. lia.
Qed.

(** The slice test of the script is the positional reading of the tag. *)
Lemma window_tag (tag line : string) :
  Py.upper (Py.slice 2 (2 + String.length tag) line) = tag <-> tag_at tag line.
Proof.
  unfold Py.slice, tag_at.
  replace (2 + String.length tag - 2) with (String.length tag) by lia.
  split.
  - intros E i Hi.
    rewrite <- E at 1.
    rewrite get_upper, substring_correct1 by exact Hi.
    now rewrite Nat.add_comm.
  - intros P. apply get_correct. intros i.
    rewrite get_upper.
    destruct (Nat.lt_ge_cases i (String.length tag)) as [Hi|Hi].
    + rewrite substring_correct1 by exact Hi.
      rewrite Nat.add_comm. now apply P.
    + rewrite substring_correct2 by exact Hi.
      now rewrite get_beyond.
Qed.

Lemma window_tag_b (tag line : string) (hi : nat) :
  hi = 2 + String.length tag ->
  String.eqb (Py.upper (Py.slice 2 hi line)) tag = true <-> tag_at tag line.
Proof. intros ->. rewrite String.eqb_eq. apply window_tag. Qed.

Lemma window_too_short (tag line : string) (hi : nat) :
  0 < String.length tag ->
  String.length line < 2 + String.length tag ->
  String.eqb (Py.upper (Py.slice 2 hi line)) tag = false.
Proof.
  intros Htag Hlen. apply String.eqb_neq. intros E.
  apply (f_equal String.length) in E.
  rewrite length_upper in E. unfold Py.slice in E.
  pose proof (length_substring line 2 (hi - 2)). lia.
Qed.

(** ** The classifier *)

Lemma classify_cases (line : string) :
  classify line =
    if String.eqb (Py.upper (Py.slice 2 8 line)) "DEBUG:" then Debug
    else if String.eqb (Py.upper (Py.slice 2 8 line)) "ERROR:" then Error
    else if String.eqb (Py.upper (Py.slice 2 7 line)) "DONE!" then Done
    else Unrecognized.
Proof. reflexivity. Qed.

Lemma classify_upper (line : string) : classify (Py.upper line) = classify line.
Proof.
  unfold classify.
  now rewrite !upper_slice, !upper_idem, <- !upper_slice.
Qed.

Lemma classify_lower (line : string) : classify (Py.lower line) = classify line.
Proof.
  unfold classify.
  now rewrite !upper_slice, !upper_lower, <- !upper_slice.
Qed.

Lemma classify_by_tags (L : string) :
  (classify L = Debug <-> tag_at "DEBUG:" L) /\
  (classify L = Error <-> ~ tag_at "DEBUG:" L /\ tag_at "ERROR:" L) /\
  (classify L = Done <->
     ~ tag_at "DEBUG:" L /\ ~ tag_at "ERROR:" L /\ tag_at "DONE!" L) /\
  (classify L = Unrecognized <->
     ~ tag_at "DEBUG:" L /\ ~ tag_at "ERROR:" L /\ ~ tag_at "DONE!" L).
Proof.
  pose proof (window_tag_b "DEBUG:" L 8 eq_refl) as HD.
  pose proof (window_tag_b "ERROR:" L 8 eq_refl) as HE.
  pose proof (window_tag_b "DONE!" L 7 eq_refl) as HN.
  refine (conj _ (conj _ (conj _ _)));
    rewrite classify_cases;
    destruct (String.eqb (Py.upper (Py.slice 2 8 L)) "DEBUG:");
    destruct (String.eqb (Py.upper (Py.slice 2 8 L)) "ERROR:");
    destruct (String.eqb (Py.upper (Py.slice 2 7 L)) "DONE!");
    intuition (discriminate || congruence).
Qed.

(** A line carries at most one tag: the tags differ in their first two
    characters. *)
Lemma tags_exclusive (L : string) :
  (tag_at "DONE!" L -> ~ tag_at "DEBUG:" L /\ ~ tag_at "ERROR:" L) /\
  (tag_at "ERROR:" L -> ~ tag_at "DEBUG:" L).
Proof.
  unfold tag_at. split.
  - intros HN. split.
    + intros HD. specialize (HN 1). specialize (HD 1). simpl in HN, HD.
      rewrite HN in HD by lia. specialize (HD ltac:(lia)). discriminate.
    + intros HE. specialize (HN 0). specialize (HE 0). simpl in HN, HE.
      rewrite HN in HE by lia. specialize (HE ltac:(lia)). discriminate.
  - intros HE HD. specialize (HE 0). specialize (HD 0). simpl in HE, HD.
    rewrite HE in HD by lia. specialize (HD ltac:(lia)). discriminate.
Qed.

Lemma done_window (L : string) :
  Py.upper (Py.slice 2 7 L) = "DONE!"%string <-> classify L = Done.
Proof.
  rewrite (window_tag "DONE!" L).
  pose proof (classify_by_tags L) as (_ & _ & HN & _).
  pose proof (tags_exclusive L) as [Hx _].
  rewrite HN. tauto.
Qed.

Lemma error_window (L : string) :
  Py.upper (Py.slice 2 8 L) = "ERROR:"%string <-> classify L = Error.
Proof.
  rewrite (window_tag "ERROR:" L).
  pose proof (classify_by_tags L) as (_ & HE & _).
  pose proof (tags_exclusive L) as [_ Hx].
  rewrite HE. tauto.
Qed.

Lemma debug_window (L : string) :
  Py.upper (Py.slice 2 8 L) = "DEBUG:"%string <-> classify L = Debug.
Proof.
  rewrite (window_tag "DEBUG:" L).
  pose proof (classify_by_tags L) as (HD & _).
  now rewrite HD.
Qed.

(** C1.  The classifier looks at fixed windows and ignores case: a line is
    [Debug] exactly when DEBUG: stands, in any case, at positions 2 to 7;
    otherwise [Error] exactly when ERROR: stands there (the slice [2:8]);
    otherwise [Done] exactly when DONE! stands at positions 2 to 6 (the
    slice [2:7]); otherwise [Unrecognized].  Changing the case of the whole
    line never changes its class. *)
Theorem classifier_windows (L : string) :
  (classify L = Debug <-> tag_at "DEBUG:" L) /\
  (classify L = Error <-> ~ tag_at "DEBUG:" L /\ tag_at "ERROR:" L) /\
  (classify L = Done <->
     ~ tag_at "DEBUG:" L /\ ~ tag_at "ERROR:" L /\ tag_at "DONE!" L) /\
  (classify L = Unrecognized <->
     ~ tag_at "DEBUG:" L /\ ~ tag_at "ERROR:" L /\ ~ tag_at "DONE!" L) /\
  classify (Py.upper L) = classify L /\
  classify (Py.lower L) = classify L.
Proof.
  destruct (classify_by_tags L) as (HD & HE & HN & HU).
  exact (conj HD (conj HE (conj HN (conj HU
           (conj (classify_upper L) (classify_lower L)))))).
Qed.

(** ** Traces *)

Lemma writes_app (a b : list event) : writes (a ++ b) = writes a ++ writes b.
Proof. apply flat_map_app. Qed.

Lemma lines_read_app (a b : list event) : lines_read (a ++ b) = lines_read a ++ lines_read b.
Proof. apply flat_map_app. Qed.

Lemma stdout_app (a b : list event) : stdout (a ++ b) = stdout a ++ stdout b.
Proof. apply flat_map_app. Qed.

Lemma pending_app (a b : list event) :
  forall w, pending w (a ++ b) = pending (pending w a) b.
Proof. induction a as [|[] a IH]; intros w; simpl; auto. Qed.

Lemma one_at_a_time_app (a b : list event) :
  forall w, one_at_a_time w (a ++ b) = one_at_a_time w a && one_at_a_time (pending w a) b.
Proof.
  induction a as [|[] a IH]; intros w; simpl; auto.
  rewrite IH. now rewrite andb_assoc.
Qed.

Lemma quiet_is_ordered (tr : list event) :
  forall w, writes tr = [] -> one_at_a_time w tr = true.
Proof.
  induction tr as [|[] tr IH]; intros w Hw; simpl in *; auto; discriminate.
Qed.

Lemma writes_heard (o : Py.obj) : writes (heard o) = [].
Proof. unfold heard. now destruct (classify (Py.str o)). Qed.

Lemma lines_read_heard (o : Py.obj) : lines_read (heard o) = [o].
Proof. unfold heard. now destruct (classify (Py.str o)). Qed.

Lemma pending_heard (o : Py.obj) (w : bool) :
  pending w (heard o) = w && negb (terminal (classify (Py.str o))).
Proof.
  unfold heard. destruct (classify (Py.str o)) eqn:C; simpl; now rewrite C.
Qed.

(** ** One pass of the waiting loop *)

Section Runs.

Context {T : Type} `{Transport T}.

Lemma poll_line (m : machine T) (o : Py.obj) (p : T) :
  ser_readline (ser m) = (inr o, p) ->
  poll m = (Returned (negb (terminal (classify (Py.str o)))),
            {| ser := p; trace := trace m ++ heard o |}).
Proof.
  intros E. unfold poll, bind, readline. rewrite E.
  unfold heard. rewrite classify_cases.
  destruct (String.eqb (Py.upper (Py.slice 2 8 (Py.str o))) "DEBUG:");
    [|destruct (String.eqb (Py.upper (Py.slice 2 8 (Py.str o))) "ERROR:");
      [|destruct (String.eqb (Py.upper (Py.slice 2 7 (Py.str o))) "DONE!")]];
    unfold print, emit, ret; simpl; rewrite <- ?app_assoc; reflexivity.
Qed.

Lemma poll_fault (m : machine T) (e : exn) (p : T) :
  ser_readline (ser m) = (inl e, p) ->
  poll m = (Raised e, {| ser := p; trace := trace m |}).
Proof. intros E. unfold poll, bind, readline. now rewrite E. Qed.

(** A line that is not terminal keeps the loop going; a terminal one ends
    it.  Either way the rest of the session starts from the machine the
    poll leaves. *)
Lemma await_step (fuel : nat) (m : machine T) (o : Py.obj) (p : T) :
  ser_readline (ser m) = (inr o, p) ->
  await (S fuel) m =
    if terminal (classify (Py.str o))
    then (Returned tt, {| ser := p; trace := trace m ++ heard o |})
    else await fuel {| ser := p; trace := trace m ++ heard o |}.
Proof.
  intros E. simpl. unfold bind. rewrite (poll_line m o p E).
  now destruct (terminal (classify (Py.str o))).
Qed.

Lemma await_run (fuel : nat) :
  forall (m m' : machine T) (out : outcome unit),
    await fuel m = (out, m') ->
    exists tr, trace m' = trace m ++ tr /\ writes tr = [] /\
               (out = Returned tt -> forall w, pending w tr = false).
Proof.
  induction fuel as [|fuel IH]; intros m m' out E.
  - inversion E; subst. exists []. rewrite app_nil_r. repeat split; auto. discriminate.
  - destruct (ser_readline (ser m)) as [[e|o] p] eqn:R.
    + simpl in E. unfold bind in E. rewrite (poll_fault m e p R) in E.
      inversion E; subst. exists []. simpl. rewrite app_nil_r.
      repeat split; auto. discriminate.
    + rewrite (await_step fuel m o p R) in E.
      destruct (terminal (classify (Py.str o))) eqn:Ht.
      * inversion E; subst. exists (heard o). simpl.
        repeat split; auto using writes_heard.
        intros _ w. rewrite pending_heard, Ht. apply andb_false_r.
      * apply IH in E. destruct E as (tr & Etr & Hw & Hp). simpl in Etr.
        exists (heard o ++ tr). rewrite app_assoc.
        repeat split; auto.
        -- now rewrite writes_app, writes_heard, Hw.
        -- intros Hout w. rewrite pending_app. now apply Hp.
Qed.

Lemma exchange_run (fuel : nat) (msg : Py.bytes) (m m' : machine T) (out : outcome unit) :
  exchange fuel msg m = (out, m') ->
  exists tr, trace m' = trace m ++ tr /\
             (writes tr = [] \/ writes tr = [frame msg]) /\
             one_at_a_time false tr = true /\
             (out = Returned tt -> writes tr = [frame msg] /\ pending false tr = false).
Proof.
  unfold exchange, bind, print, write. simpl.
  destruct (ser_write (msg ++ [Py.newline]) (ser m)) as [[e|[]] p] eqn:W; intros E.
  - inversion E; subst. simpl.
    exists [Printed ("Write: " ++ Py.repr_bytes msg)].
    repeat split; auto; discriminate.
  - apply await_run in E. destruct E as (tr & Etr & Hw & Hp). simpl in Etr.
    exists (Printed ("Write: " ++ Py.repr_bytes msg) :: Wrote (frame msg) :: tr).
    split; [|split; [|split]].
    + rewrite Etr. unfold frame. now rewrite <- !app_assoc.
    + right. simpl. now rewrite Hw.
    + simpl. now apply quiet_is_ordered.
    + intros Hout. simpl. rewrite Hw. split; auto.
Qed.

Lemma session_run (fuel : nat) (messages : list Py.bytes) :
  forall (m m' : machine T) (out : outcome unit),
    session fuel messages m = (out, m') ->
    exists tr, trace m' = trace m ++ tr /\
               (exists k, writes tr = firstn k (map frame messages)) /\
               one_at_a_time false tr = true /\
               (out = Returned tt ->
                writes tr = map frame messages /\ pending false tr = false).
Proof.
  induction messages as [|msg rest IH]; intros m m' out E.
  - inversion E; subst. exists []. rewrite app_nil_r.
    repeat split; auto. now exists 0.
  - simpl in E. unfold bind in E.
    destruct (exchange fuel msg m) as [[[]|e|] m1] eqn:X;
      apply exchange_run in X; destruct X as (tr1 & E1 & Hw1 & Ho1 & Hr1).
    + destruct (Hr1 eq_refl) as [Hw Hp].
      apply IH in E. destruct E as (tr2 & E2 & (k & Hk) & Ho2 & Hr2).
      exists (tr1 ++ tr2). rewrite E2, E1, app_assoc.
      split; [reflexivity|split; [|split]].
      * exists (S k). now rewrite writes_app, Hw, Hk.
      * now rewrite one_at_a_time_app, Ho1, Hp.
      * intros Hout. destruct (Hr2 Hout) as [Hw2 Hp2].
        rewrite writes_app, Hw, Hw2, pending_app, Hp. auto.
    + inversion E; subst. exists tr1.
      repeat split; auto; try discriminate.
      destruct Hw1 as [-> | ->]; [now exists 0 | now exists 1].
    + inversion E; subst. exists tr1.
      repeat split; auto; try discriminate.
      destruct Hw1 as [-> | ->]; [now exists 0 | now exists 1].
Qed.

End Runs.

(** ** Sessions against a scripted port *)

Lemma await_scripted (rs : list Py.obj) :
  forall (fuel : nat) (rest : script) (tr0 : list event),
    answers rs = true -> List.length rs <= fuel ->
    await fuel {| ser := replying rs ++ rest; trace := tr0 |} =
      (Returned tt, {| ser := rest; trace := tr0 ++ flat_map heard rs |}).
Proof.
  induction rs as [|o rs IH]; intros fuel rest tr0 Ha Hf; [discriminate|].
  destruct fuel as [|fuel]; [simpl in Hf; lia|].
  rewrite (await_step fuel _ o (replying rs ++ rest)) by reflexivity.
  simpl in Ha |- *.
  destruct (terminal (classify (Py.str o))).
  - destruct rs; [|discriminate]. simpl. now rewrite app_nil_r.
  - rewrite IH by (auto; simpl in Hf; lia). now rewrite <- app_assoc.
Qed.

Lemma exchange_scripted (rs : list Py.obj) (msg : Py.bytes)
      (fuel : nat) (rest : script) (tr0 : list event) :
  answers rs = true -> List.length rs <= fuel ->
  exchange fuel msg {| ser := replying rs ++ rest; trace := tr0 |} =
    (Returned tt,
     {| ser := rest;
        trace := tr0 ++ Printed ("Write: " ++ Py.str (Py.Bytes msg)) :: Wrote (frame msg)
                          :: flat_map heard rs |}).
Proof.
  intros Ha Hf. unfold exchange, bind, print, write, emit. simpl.
  rewrite await_scripted by assumption.
  unfold frame. now rewrite <- !app_assoc.
Qed.

Lemma session_scripted (messages : list Py.bytes) :
  forall (replies : list (list Py.obj)) (fuel : nat) (rest : script) (tr0 : list event),
    List.length replies = List.length messages ->
    Forall (fun rs => answers rs = true /\ List.length rs <= fuel) replies ->
    session fuel messages {| ser := replying (List.concat replies) ++ rest; trace := tr0 |} =
      (Returned tt, {| ser := rest; trace := tr0 ++ transcript messages replies |}).
Proof.
  induction messages as [|msg messages IH]; intros [|rs replies] fuel rest tr0 Hl Hall;
    try discriminate.
  - simpl. now rewrite app_nil_r.
  - inversion Hall as [|? ? [Ha Hf] Hall']; subst.
    simpl. unfold bind, replying. rewrite map_app, <- app_assoc.
    fold (replying rs). fold (replying (List.concat replies)).
    rewrite exchange_scripted by assumption.
    rewrite IH by (auto; simpl in Hl; lia).
    f_equal. f_equal. now rewrite <- app_assoc.
Qed.

(** C2.  Messages go out in input order, one at a time.  Whatever the port
    does and however the run ends, the writes seen so far are the first
    messages of the list, each followed by one newline, and no message is
    written while an earlier one still awaits its [Error] or [Done] line;
    a session that runs to its end has written all N messages and left
    none pending.  A port that answers every message with a terminal line
    makes the session run to its end. *)
Theorem session_order_preserved :
  (forall (T : Type) (link : Transport T) (fuel : nat) (messages : list Py.bytes)
          (m : machine T),
      exists tr,
        trace (snd (session fuel messages m)) = trace m ++ tr /\
        (exists k, writes tr = firstn k (map frame messages)) /\
        one_at_a_time false tr = true /\
        (fst (session fuel messages m) = Returned tt ->
         writes tr = map (fun msg => msg ++ [Py.newline]) messages /\
         List.length (writes tr) = List.length messages /\
         pending false tr = false)) /\
  (forall (messages : list Py.bytes) (replies : list (list Py.obj)) (fuel : nat)
          (rest : script) (tr0 : list event),
      List.length replies = List.length messages ->
      Forall (fun rs => answers rs = true /\ List.length rs <= fuel) replies ->
      session fuel messages {| ser := replying (List.concat replies) ++ rest; trace := tr0 |} =
        (Returned tt, {| ser := rest; trace := tr0 ++ transcript messages replies |})).
Proof.
  split.
  - intros T link fuel messages m.
    destruct (session fuel messages m) as [out m'] eqn:E.
    destruct (session_run fuel messages m m' out E) as (tr & Etr & Hk & Ho & Hr).
    exists tr. simpl. repeat split; auto.
    + now apply Hr.
    + destruct (Hr H) as [-> _]. now rewrite length_map.
    + now apply Hr.
  - intros. now apply session_scripted.
Qed.

(** The end-to-end scenario: three messages, each answered by one DONE!
    line. *)
Example three_messages :
  session 1 [Py.b "A-1"; Py.b "B-2"; Py.b "C-3"]
          (boot (says ["xxDONE!"; "xxDONE!"; "xxDONE!"]%string)) =
    (Returned tt,
     {| ser := [];
        trace := [ Printed "Write: b'A-1'"; Wrote (Py.b "A-1" ++ [Py.newline]);
                   GotLine (Py.Str "xxDONE!");
                   Printed "Write: b'B-2'"; Wrote (Py.b "B-2" ++ [Py.newline]);
                   GotLine (Py.Str "xxDONE!");
                   Printed "Write: b'C-3'"; Wrote (Py.b "C-3" ++ [Py.newline]);
                   GotLine (Py.Str "xxDONE!") ] |}).
Proof. reflexivity. Qed.

(** ** The waiting loop, line by line *)

Section Waiting.

Context {T : Type} `{Transport T}.

Lemma session_next (fuel : nat) (msg : Py.bytes) (rest : list Py.bytes) (m m1 : machine T) :
  exchange fuel msg m = (Returned tt, m1) ->
  session fuel (msg :: rest) m = session fuel rest m1.
Proof. intros E. simpl. unfold bind. now rewrite E. Qed.

Lemma await_terminal (fuel : nat) (m : machine T) (o : Py.obj) (p : T) :
  ser_readline (ser m) = (inr o, p) ->
  terminal (classify (Py.str o)) = true ->
  await (S fuel) m = (Returned tt, {| ser := p; trace := trace m ++ heard o |}).
Proof. intros R Ht. rewrite (await_step fuel m o p R). now rewrite Ht. Qed.

Lemma await_retry (fuel : nat) (m : machine T) (o : Py.obj) (p : T) :
  ser_readline (ser m) = (inr o, p) ->
  terminal (classify (Py.str o)) = false ->
  await (S fuel) m = await fuel {| ser := p; trace := trace m ++ heard o |}.
Proof. intros R Ht. rewrite (await_step fuel m o p R). now rewrite Ht. Qed.

Lemma await_fault (fuel : nat) (m : machine T) (e : exn) (p : T) :
  ser_readline (ser m) = (inl e, p) ->
  await (S fuel) m = (Raised e, {| ser := p; trace := trace m |}).
Proof. intros R. simpl. unfold bind. now rewrite (poll_fault m e p R). Qed.

End Waiting.

Lemma empty_is_unrecognized (o : Py.obj) :
  Py.truthy o = false -> classify (Py.str o) = Unrecognized.
Proof.
  destruct o as [[|x bs]|[|c s]]; simpl; intros E; try discriminate; reflexivity.
Qed.

(** C3.  An [Error] line ends the wait for its own message and nothing
    else: the waiting loop returns normally, and a session whose current
    exchange has returned goes on with the remaining messages.  In the
    two-message session whose port says xxERROR: x and then xxDONE!, both
    messages are written and the session returns. *)
Theorem error_does_not_abort_session :
  (forall (T : Type) (link : Transport T) (fuel : nat) (m : machine T)
          (o : Py.obj) (p : T),
      ser_readline (ser m) = (inr o, p) ->
      classify (Py.str o) = Error ->
      await (S fuel) m =
        (Returned tt,
         {| ser := p;
            trace := trace m ++ [GotLine o; Printed ("Read:  " ++ Py.str o)] |})) /\
  (forall (T : Type) (link : Transport T) (fuel : nat) (msg : Py.bytes)
          (rest : list Py.bytes) (m m1 : machine T),
      exchange fuel msg m = (Returned tt, m1) ->
      session fuel (msg :: rest) m = session fuel rest m1) /\
  (forall (fuel : nat) (msg1 msg2 : Py.bytes),
      session (S fuel) [msg1; msg2] (boot (says ["xxERROR: x"; "xxDONE!"]%string)) =
        (Returned tt,
         {| ser := [];
            trace := [ Printed ("Write: " ++ Py.str (Py.Bytes msg1));
                       Wrote (msg1 ++ [Py.newline]);
                       GotLine (Py.Str "xxERROR: x");
                       Printed "Read:  xxERROR: x";
                       Printed ("Write: " ++ Py.str (Py.Bytes msg2));
                       Wrote (msg2 ++ [Py.newline]);
                       GotLine (Py.Str "xxDONE!") ] |})).
Proof.
  split; [|split].
  - intros T link fuel m o p R C.
    rewrite (await_terminal fuel m o p R) by now rewrite C.
    unfold heard. now rewrite C.
  - intros T link fuel msg rest m m1. apply session_next.
  - intros fuel msg1 msg2.
    apply (session_scripted [msg1; msg2]
             [[Py.Str "xxERROR: x"]; [Py.Str "xxDONE!"]] (S fuel) [] []).
    + reflexivity.
    + repeat (apply Forall_cons; [split; [reflexivity | simpl; lia]|]).
      apply Forall_nil.
Qed.

(** C5.  A terminal line stops the wait at that line.  With the replies
    xxDEBUG: foo, xxDEBUG: bar, xxDONE! the exchange reads exactly those
    three lines, leaves the rest of the port's input untouched, and the
    session goes on with the next message; with the single reply
    xxERROR: bad it reads exactly one line and goes on. *)
Theorem terminal_line_halts_waiting
        (k : nat) (msg : Py.bytes) (later : list Py.bytes)
        (rest : script) (tr0 : list event) :
  let three := [ Printed ("Write: " ++ Py.str (Py.Bytes msg)); Wrote (msg ++ [Py.newline]);
                 GotLine (Py.Str "xxDEBUG: foo"); Printed "Read:  xxDEBUG: foo";
                 GotLine (Py.Str "xxDEBUG: bar"); Printed "Read:  xxDEBUG: bar";
                 GotLine (Py.Str "xxDONE!") ] in
  let one := [ Printed ("Write: " ++ Py.str (Py.Bytes msg)); Wrote (msg ++ [Py.newline]);
               GotLine (Py.Str "xxERROR: bad"); Printed "Read:  xxERROR: bad" ] in
  (exchange (3 + k) msg
     {| ser := says ["xxDEBUG: foo"; "xxDEBUG: bar"; "xxDONE!"]%string ++ rest;
        trace := tr0 |} =
     (Returned tt, {| ser := rest; trace := tr0 ++ three |}) /\
   List.length (lines_read three) = 3 /\
   session (3 + k) (msg :: later)
     {| ser := says ["xxDEBUG: foo"; "xxDEBUG: bar"; "xxDONE!"]%string ++ rest;
        trace := tr0 |} =
     session (3 + k) later {| ser := rest; trace := tr0 ++ three |}) /\
  (exchange (1 + k) msg {| ser := says ["xxERROR: bad"]%string ++ rest; trace := tr0 |} =
     (Returned tt, {| ser := rest; trace := tr0 ++ one |}) /\
   List.length (lines_read one) = 1 /\
   session (1 + k) (msg :: later)
     {| ser := says ["xxERROR: bad"]%string ++ rest; trace := tr0 |} =
     session (1 + k) later {| ser := rest; trace := tr0 ++ one |}).
Proof.
  intros three one.
  assert (E3 : exchange (3 + k) msg
                 {| ser := says ["xxDEBUG: foo"; "xxDEBUG: bar"; "xxDONE!"]%string ++ rest;
                    trace := tr0 |} =
               (Returned tt, {| ser := rest; trace := tr0 ++ three |})).
  { apply (exchange_scripted
             [Py.Str "xxDEBUG: foo"; Py.Str "xxDEBUG: bar"; Py.Str "xxDONE!"]);
      [reflexivity | simpl; lia]. }
  assert (E1 : exchange (1 + k) msg
                 {| ser := says ["xxERROR: bad"]%string ++ rest; trace := tr0 |} =
               (Returned tt, {| ser := rest; trace := tr0 ++ one |})).
  { apply (exchange_scripted [Py.Str "xxERROR: bad"]); [reflexivity | simpl; lia]. }
  repeat split; auto using session_next.
Qed.

(** C6.  Junk and empty lines are [Unrecognized]; they neither end the wait
    nor raise.  With the replies xxJUNK, the empty line, xxDONE! the
    exchange reads exactly three lines, prints none of them and returns;
    in general an [Unrecognized] line, and in particular the [b''] of a
    read timeout, sends the loop back to its read. *)
Theorem unrecognized_lines_do_not_terminate :
  (classify "xxJUNK" = Unrecognized /\ classify "" = Unrecognized /\
   classify (Py.str (Py.Bytes [])) = Unrecognized) /\
  (forall (k : nat) (msg : Py.bytes) (later : list Py.bytes)
          (rest : script) (tr0 : list event),
      let heard3 := [ Printed ("Write: " ++ Py.str (Py.Bytes msg));
                      Wrote (msg ++ [Py.newline]);
                      GotLine (Py.Str "xxJUNK"); GotLine (Py.Str "");
                      GotLine (Py.Str "xxDONE!") ] in
      exchange (3 + k) msg
        {| ser := says ["xxJUNK"; ""; "xxDONE!"]%string ++ rest; trace := tr0 |} =
        (Returned tt, {| ser := rest; trace := tr0 ++ heard3 |}) /\
      List.length (lines_read heard3) = 3 /\
      session (3 + k) (msg :: later)
        {| ser := says ["xxJUNK"; ""; "xxDONE!"]%string ++ rest; trace := tr0 |} =
        session (3 + k) later {| ser := rest; trace := tr0 ++ heard3 |}) /\
  (forall (T : Type) (link : Transport T) (fuel : nat) (m : machine T)
          (o : Py.obj) (p : T),
      ser_readline (ser m) = (inr o, p) ->
      classify (Py.str o) = Unrecognized ->
      poll m = (Returned true, {| ser := p; trace := trace m ++ [GotLine o] |}) /\
      await (S fuel) m = await fuel {| ser := p; trace := trace m ++ [GotLine o] |}).
Proof.
  split; [|split].
  - repeat split.
  - intros k msg later rest tr0 heard3.
    assert (E : exchange (3 + k) msg
                  {| ser := says ["xxJUNK"; ""; "xxDONE!"]%string ++ rest; trace := tr0 |} =
                (Returned tt, {| ser := rest; trace := tr0 ++ heard3 |})).
    { apply (exchange_scripted [Py.Str "xxJUNK"; Py.Str ""; Py.Str "xxDONE!"]);
        [reflexivity | simpl; lia]. }
    repeat split; auto using session_next.
  - intros T link fuel m o p R C. split.
    + rewrite (poll_line m o p R). unfold heard. now rewrite C.
    + rewrite (await_retry fuel m o p R) by now rewrite C.
      unfold heard. now rewrite C.
Qed.

(** C9.  A line of fewer than 7 characters is too short for either window:
    both slices come out shorter than their tags, no tag matches, the line
    is [Unrecognized], and the waiting loop reads on with nothing raised
    and nothing printed. *)
Theorem short_line_is_unrecognized (L : string) :
  String.length L < 7 ->
  String.length (Py.slice 2 8 L) < 6 /\
  String.length (Py.slice 2 7 L) < 5 /\
  classify L = Unrecognized /\
  (forall (T : Type) (link : Transport T) (m : machine T) (o : Py.obj) (p : T),
      Py.str o = L ->
      ser_readline (ser m) = (inr o, p) ->
      poll m = (Returned true, {| ser := p; trace := trace m ++ [GotLine o] |})).
Proof.
  intros Hlen.
  assert (C : classify L = Unrecognized).
  { rewrite classify_cases.
    now rewrite !window_too_short by (simpl; lia). }
  unfold Py.slice.
  pose proof (length_substring L 2 (8 - 2)).
  pose proof (length_substring L 2 (7 - 2)).
  repeat split; try lia; auto.
  intros T link m o p <- R.
  rewrite (poll_line m o p R). unfold heard. now rewrite C.
Qed.

Lemma short_line_is_unrecognized_witness :
  String.length "xxDONE" < 7 /\ classify "xxDONE" = Unrecognized.
Proof.
  split.
  - simpl. lia.
  - apply (short_line_is_unrecognized "xxDONE"). simpl. lia.
Defined.

(** A line too short for the six-character window is neither [Debug] nor
    [Error], whatever else it is. *)
Lemma short_of_long_window (L : string) :
  String.length L < 8 -> classify L <> Debug /\ classify L <> Error.
Proof.
  intros Hlen. rewrite classify_cases.
  rewrite !(window_too_short _ L 8) by (simpl; lia).
  destruct (String.eqb (Py.upper (Py.slice 2 7 L)) "DONE!"); split; discriminate.
Qed.

(** C10.  A [Done] line leaves no mark on standard output: when DONE!
    stands in the window [2:7] the loop ends the wait and the only new
    event is the read itself, whereas a [Debug] or an [Error] line is
    printed after Read:. *)
Theorem done_line_prints_nothing
        (T : Type) (link : Transport T) (m : machine T) (o : Py.obj) (p : T) :
  ser_readline (ser m) = (inr o, p) ->
  (Py.upper (Py.slice 2 7 (Py.str o)) = "DONE!"%string ->
   classify (Py.str o) = Done /\
   poll m = (Returned false, {| ser := p; trace := trace m ++ [GotLine o] |}) /\
   stdout (trace (snd (poll m))) = stdout (trace m)) /\
  (classify (Py.str o) = Debug ->
   poll m = (Returned true,
             {| ser := p;
                trace := trace m ++ [GotLine o; Printed ("Read:  " ++ Py.str o)] |})) /\
  (classify (Py.str o) = Error ->
   poll m = (Returned false,
             {| ser := p;
                trace := trace m ++ [GotLine o; Printed ("Read:  " ++ Py.str o)] |})).
Proof.
  intros R. rewrite (poll_line m o p R). unfold heard.
  split; [|split].
  - intros W. apply done_window in W. rewrite W. simpl.
    repeat split. rewrite stdout_app. simpl. now rewrite app_nil_r.
  - now intros ->.
  - now intros ->.
Qed.

Lemma done_line_prints_nothing_witness :
  poll (boot (says ["xxDONE!"%string])) =
    (Returned false, {| ser := []; trace := [GotLine (Py.Str "xxDONE!")] |}).
Proof.
  apply (done_line_prints_nothing script scripted (boot (says ["xxDONE!"%string]))
           (Py.Str "xxDONE!") []); reflexivity.
Defined.

(** ** Error kinds *)

(** ** Scripts that never raise *)

Create HintDb script.

Lemma safe_ret {T A : Type} (good : T -> Prop) (a : A) : safe good (@ret T A a).
Proof. intros m G. split; [exact G | discriminate]. Qed.

Lemma safe_spin {T A : Type} (good : T -> Prop) : safe good (@spin T A).
Proof. intros m G. split; [exact G | discriminate]. Qed.

Lemma safe_print {T : Type} (good : T -> Prop) (s : string) : safe good (@print T s).
Proof. intros m G. split; [exact G | discriminate]. Qed.

Lemma safe_bind {T A B : Type} (good : T -> Prop) (c : M T A) (k : A -> M T B) :
  safe good c -> (forall a, safe good (k a)) -> safe good (bind c k).
Proof.
  intros Hc Hk m G. unfold bind.
  destruct (Hc m G) as [G1 N1]. destruct (c m) as [[a|e'|] m1]; simpl in *.
  - now apply Hk.
  - exfalso. now apply (N1 e').
  - split; [exact G1 | discriminate].
Qed.

Section Reliable.

Context {T : Type} `{Transport T}.

Variable good : T -> Prop.

Hypothesis sound_port : reliable good.

Lemma safe_Serial (cfg : settings) : safe good (Serial cfg).
Proof.
  intros m G. unfold Serial.
  destruct sound_port as (Ho & _). destruct (Ho cfg (ser m) G) as (t' & -> & G').
  split; [exact G' | discriminate].
Qed.

Lemma safe_read (size : nat) : safe good (read size).
Proof.
  intros m G. unfold read.
  destruct sound_port as (_ & Hr & _). destruct (Hr size (ser m) G) as (o & t' & -> & G').
  split; [exact G' | discriminate].
Qed.

Lemma safe_readline : safe good readline.
Proof.
  intros m G. unfold readline.
  destruct sound_port as (_ & _ & Hl & _). destruct (Hl (ser m) G) as (o & t' & -> & G').
  split; [exact G' | discriminate].
Qed.

Lemma safe_write (bs : Py.bytes) : safe good (write bs).
Proof.
  intros m G. unfold write.
  destruct sound_port as (_ & _ & _ & Hw). destruct (Hw bs (ser m) G) as (t' & -> & G').
  split; [exact G' | discriminate].
Qed.

#[local] Hint Resolve safe_ret safe_spin safe_print
  safe_Serial safe_read safe_readline safe_write : script.

Ltac steps :=
  repeat (apply safe_bind; [auto with script | intros ?]); auto with script.

Lemma safe_sync (fuel : nat) : safe good (sync fuel).
Proof.
  induction fuel as [|fuel IH]; simpl; steps.
  destruct (Py.eq_bytes _ _); auto with script.
Qed.

Lemma safe_poll : safe good poll.
Proof.
  unfold poll. steps.
  repeat match goal with |- safe _ (if ?c then _ else _) => destruct c end; steps.
Qed.

Lemma safe_await (fuel : nat) : safe good (await fuel).
Proof.
  induction fuel as [|fuel IH]; simpl; auto with script.
  apply safe_bind; [apply safe_poll|].
  intros []; auto with script.
Qed.

Lemma safe_session (fuel : nat) (messages : list Py.bytes) :
  safe good (session fuel messages).
Proof.
  induction messages as [|msg rest IH]; simpl; auto with script.
  apply safe_bind; [|intros _; exact IH].
  unfold exchange. steps. apply safe_await.
Qed.

Lemma safe_main (fuel : nat) (c : cmdline) : safe good (main fuel c).
Proof.
  unfold main.
  apply safe_bind; [unfold connect; steps | intros _].
  apply safe_bind; [unfold handshake; steps | intros _].
  - apply safe_sync.
  - apply safe_session.
Qed.

End Reliable.

Lemma scripted_reliable : reliable replies_only.
Proof.
  assert (N : forall s, replies_only s ->
                        exists o s', script_next s = (inr o, s') /\ replies_only s').
  { intros s G. destruct G as [|r s [o ->] G]; simpl.
    - exists (Py.Bytes []), []. split; [reflexivity | constructor].
    - now exists o, s. }
  repeat split.
  - intros cfg s G. now exists s.
  - intros size s G. now apply N.
  - intros s G. now apply N.
  - intros bs s G. now exists s.
Qed.

(** C7 as stated fails.  A read that times out is polled and dropped
    without a word, and a port that fails stops the script before it prints
    anything: neither adds a line to standard output. *)
Lemma timeout_prints_nothing :
  (error_kind_of (fst (ser_readline (ser (boot [Quiet])))) = Some ProtocolTimeout /\
   poll (boot [Quiet]) =
     (Returned true, {| ser := []; trace := [GotLine (Py.Bytes [])] |}) /\
   stdout [GotLine (Py.Bytes [])] = []) /\
  (error_kind_of (fst (ser_readline (ser (boot [Unplugged])))) = Some TransportError /\
   poll (boot [Unplugged]) =
     (Raised SerialException, {| ser := [Unplugged]; trace := [] |})) /\
  ~ every_error_kind_prints.
Proof.
  repeat split.
  intros P.
  specialize (P wire pyserial (boot [Quiet]) ProtocolTimeout eq_refl).
  simpl in P. lia.
Qed.

(** ** The handshake *)

Lemma before_sync_writes (pre : list event) : Forall before_sync pre -> writes pre = [].
Proof.
  induction 1 as [|e pre [o [-> _]] _ IH]; simpl; auto.
Qed.

Lemma eq_bytes_true (o : Py.obj) (lit : Py.bytes) :
  Py.eq_bytes o lit = true -> o = Py.Bytes lit.
Proof.
  destruct o as [bs|s]; simpl; [|discriminate].
  destruct (list_eq_dec Byte.byte_eq_dec bs lit); [now subst|discriminate].
Qed.

Section Handshake.

Context {T : Type} `{Transport T}.

Lemma sync_run (fuel : nat) :
  forall (m m' : machine T) (out : outcome unit),
    sync fuel m = (out, m') ->
    exists pre,
      Forall before_sync pre /\
      trace m' = trace m ++ pre ++
                 match out with
                 | Returned _ => [GotBytes 1 (Py.Bytes (Py.b "Q"))]
                 | _ => []
                 end.
Proof.
  induction fuel as [|fuel IH]; intros m m' out E.
  - inversion E; subst. exists []. split; [constructor|]. now rewrite app_nil_r.
  - simpl in E. unfold bind, read in E.
    destruct (ser_read 1 (ser m)) as [[e|o] p] eqn:R.
    + inversion E; subst. exists []. split; [constructor|]. simpl. now rewrite app_nil_r.
    + destruct (Py.eq_bytes o (Py.b "Q")) eqn:Q.
      * inversion E; subst. apply eq_bytes_true in Q. subst o.
        exists []. split; [constructor|]. reflexivity.
      * apply IH in E. destruct E as (pre & Hpre & Etr). simpl in Etr.
        exists (GotBytes 1 o :: pre). split.
        -- constructor; auto. now exists o.
        -- rewrite Etr. now rewrite <- app_assoc.
Qed.

Lemma handshake_run (fuel : nat) (m m' : machine T) (out : outcome Py.obj) :
  handshake fuel m = (out, m') ->
  exists tr,
    trace m' = trace m ++ tr /\
    ((writes tr = [] /\ forall line, out <> Returned line) \/
     (exists pre post,
         tr = Printed "waiting for sync" :: pre ++
              GotBytes 1 (Py.Bytes (Py.b "Q")) :: Wrote (Py.b "X") :: post /\
         Forall before_sync pre /\ writes post = [] /\
         forall line, out = Returned line ->
                      post = [Printed "Sync"; GotLine line; Printed (Py.str line)])).
Proof.
  unfold handshake, bind at 1, print at 1. simpl.
  unfold bind at 1.
  destruct (sync fuel _) as [[[]|e|] m1] eqn:S; apply sync_run in S;
    destruct S as (pre & Hpre & E1); simpl in E1; intros E.
  - unfold bind at 1, write in E.
    destruct (ser_write (Py.b "X") (ser m1)) as [[e|[]] p] eqn:W.
    + inversion E; subst. simpl.
      exists (Printed "waiting for sync" :: pre ++ [GotBytes 1 (Py.Bytes (Py.b "Q"))]).
      split; [now rewrite E1, <- app_assoc|].
      left. split; [|discriminate].
      simpl. now rewrite writes_app, (before_sync_writes pre Hpre).
    + unfold bind, print, readline, emit in E. simpl in E.
      destruct (ser_readline p) as [[e|line] q] eqn:R; inversion E; subst; simpl.
      * exists (Printed "waiting for sync" :: pre ++
                GotBytes 1 (Py.Bytes (Py.b "Q")) :: Wrote (Py.b "X") :: [Printed "Sync"]).
        split; [rewrite E1; now rewrite <- !app_assoc|].
        right. exists pre, [Printed "Sync"].
        repeat split; auto. discriminate.
      * exists (Printed "waiting for sync" :: pre ++
                GotBytes 1 (Py.Bytes (Py.b "Q")) :: Wrote (Py.b "X")
                :: [Printed "Sync"; GotLine line; Printed (Py.str line)]).
        split; [rewrite E1; now rewrite <- !app_assoc|].
        right. exists pre, [Printed "Sync"; GotLine line; Printed (Py.str line)].
        repeat split; auto. intros ? [= <-]. reflexivity.
  - inversion E; subst. exists (Printed "waiting for sync" :: pre).
    split; [rewrite E1; now rewrite app_nil_r, <- app_assoc|].
    left. split; [|discriminate]. simpl. now apply before_sync_writes.
  - inversion E; subst. exists (Printed "waiting for sync" :: pre).
    split; [rewrite E1; now rewrite app_nil_r, <- app_assoc|].
    left. split; [|discriminate]. simpl. now apply before_sync_writes.
Qed.

End Handshake.

(** C7, amended.  In the waiting loop of a message, of the three error
    kinds only the device's own ERROR: line is printed: it is printed once
    after Read: and ends the wait normally.  A read timeout there prints
    nothing and the loop reads again; a transport failure there is not
    caught, so it ends the run at that call, the script printing nothing
    for it.  The transport failure is the only one that stops the script:
    on a port none of whose operations fails, no run of the script ends in
    an exception.  The handshake's own line read is another matter: what
    it returns is printed as it is, so a timeout there shows as [b'']. *)
Theorem error_kinds_in_the_waiting_loop :
  (forall (T : Type) (link : Transport T) (fuel : nat) (m : machine T) (k : error_kind),
      error_kind_of (fst (ser_readline (ser m))) = Some k ->
      match k with
      | DeviceReportedError =>
          exists o p,
            ser_readline (ser m) = (inr o, p) /\
            await (S fuel) m =
              (Returned tt,
               {| ser := p;
                  trace := trace m ++ [GotLine o; Printed ("Read:  " ++ Py.str o)] |})
      | ProtocolTimeout =>
          exists o p,
            ser_readline (ser m) = (inr o, p) /\
            poll m = (Returned true, {| ser := p; trace := trace m ++ [GotLine o] |}) /\
            await (S fuel) m = await fuel {| ser := p; trace := trace m ++ [GotLine o] |}
      | TransportError =>
          exists e p,
            ser_readline (ser m) = (inl e, p) /\
            await (S fuel) m = (Raised e, {| ser := p; trace := trace m |})
      end) /\
  (forall (T : Type) (link : Transport T) (good : T -> Prop),
      reliable good ->
      forall (fuel : nat) (c : cmdline) (m : machine T) (e : exn),
        good (ser m) -> fst (main fuel c m) <> Raised e) /\
  (forall (T : Type) (link : Transport T) (fuel : nat) (m : machine T) (line : Py.obj),
      fst (handshake fuel m) = Returned line ->
      exists tr,
        trace (snd (handshake fuel m)) =
          trace m ++ tr ++ [GotLine line; Printed (Py.str line)]) /\
  handshake 1 (boot [Recv "Q"%byte]) =
    (Returned (Py.Bytes []),
     {| ser := [];
        trace := [ Printed "waiting for sync"; GotBytes 1 (Py.Bytes (Py.b "Q"));
                   Wrote (Py.b "X"); Printed "Sync";
                   GotLine (Py.Bytes []); Printed "b''" ] |}).
Proof.
  split; [|split; [|split]].
  - intros T link fuel m k.
    destruct (ser_readline (ser m)) as [[e|o] p] eqn:R; unfold error_kind_of; cbn [fst].
    + intros K. inversion K; subst. exists e, p. split; auto.
      now apply await_fault.
    + destruct (Py.truthy o) eqn:Ho; cbn [negb].
      * destruct (classify (Py.str o)) eqn:C; intros K; inversion K; subst.
        exists o, p. split; auto.
        rewrite (await_terminal fuel m o p R) by now rewrite C.
        unfold heard. now rewrite C.
      * intros K. inversion K; subst.
        pose proof (empty_is_unrecognized o Ho) as C.
        exists o, p. split; [auto|split].
        -- rewrite (poll_line m o p R). unfold heard. now rewrite C.
        -- rewrite (await_retry fuel m o p R) by now rewrite C.
           unfold heard. now rewrite C.
  - intros T link good Hsound fuel c m e G.
    now apply (safe_main good Hsound fuel c m G).
  - intros T link fuel m line.
    destruct (handshake fuel m) as [out m'] eqn:E. cbn [fst snd]. intros ->.
    destruct (handshake_run fuel m m' (Returned line) E)
      as (tr & Etr & [[_ N]|(pre & post & -> & _ & _ & Hpost)]).
    + now contradiction (N line).
    + rewrite (Hpost line eq_refl) in Etr.
      exists (Printed "waiting for sync" :: pre ++
              [GotBytes 1 (Py.Bytes (Py.b "Q")); Wrote (Py.b "X"); Printed "Sync"]).
      rewrite Etr. cbn [app]. now rewrite <- !app_assoc.
  - reflexivity.
Qed.

Lemma error_kinds_in_the_waiting_loop_witness :
  exists o p,
    ser_readline (ser (boot (sends "Error: full" ++ [Recv Py.newline]))) = (inr o, p) /\
    await 1 (boot (sends "Error: full" ++ [Recv Py.newline])) =
      (Returned tt,
       {| ser := p; trace := [] ++ [GotLine o; Printed ("Read:  " ++ Py.str o)] |}).
Proof.
  apply (proj1 error_kinds_in_the_waiting_loop wire pyserial 0
           (boot (sends "Error: full" ++ [Recv Py.newline])) DeviceReportedError).
  reflexivity.
Defined.


(** C4.  The handshake on a port that emits XYZQ and then the line
    BASICv1: four single-byte reads, the last one the sentinel; then one
    write, of the byte X; then one line read, whose result is returned as
    it is (with its newline when the line came terminated).  What follows
    the line on the wire is left unread.  On any port whatever the only
    write of the handshake is that one X, and it comes right after the
    first read that returned Q. *)
Theorem handshake_determinism :
  (forall (k : nat) (rest : wire) (tr0 : list event),
      handshake (4 + k)
        {| ser := sends "XYZQ" ++ sends "BASICv1" ++ Recv Py.newline :: rest;
           trace := tr0 |} =
        (Returned (Py.Bytes (Py.b "BASICv1" ++ [Py.newline])),
         {| ser := rest;
            trace := tr0 ++
              [ Printed "waiting for sync";
                GotBytes 1 (Py.Bytes (Py.b "X")); GotBytes 1 (Py.Bytes (Py.b "Y"));
                GotBytes 1 (Py.Bytes (Py.b "Z")); GotBytes 1 (Py.Bytes (Py.b "Q"));
                Wrote (Py.b "X"); Printed "Sync";
                GotLine (Py.Bytes (Py.b "BASICv1" ++ [Py.newline]));
                Printed (Py.str (Py.Bytes (Py.b "BASICv1" ++ [Py.newline]))) ] |})) /\
  (forall (k : nat) (tr0 : list event),
      handshake (4 + k) {| ser := sends "XYZQ" ++ sends "BASICv1"; trace := tr0 |} =
        (Returned (Py.Bytes (Py.b "BASICv1")),
         {| ser := [];
            trace := tr0 ++
              [ Printed "waiting for sync";
                GotBytes 1 (Py.Bytes (Py.b "X")); GotBytes 1 (Py.Bytes (Py.b "Y"));
                GotBytes 1 (Py.Bytes (Py.b "Z")); GotBytes 1 (Py.Bytes (Py.b "Q"));
                Wrote (Py.b "X"); Printed "Sync";
                GotLine (Py.Bytes (Py.b "BASICv1")); Printed "b'BASICv1'" ] |})) /\
  (forall (k : nat) (rest : script) (tr0 : list event),
      handshake (4 + k)
        {| ser := replying [ Py.Bytes (Py.b "X"); Py.Bytes (Py.b "Y"); Py.Bytes (Py.b "Z");
                             Py.Bytes (Py.b "Q"); Py.Str "BASICv1" ] ++ rest;
           trace := tr0 |} =
        (Returned (Py.Str "BASICv1"),
         {| ser := rest;
            trace := tr0 ++
              [ Printed "waiting for sync";
                GotBytes 1 (Py.Bytes (Py.b "X")); GotBytes 1 (Py.Bytes (Py.b "Y"));
                GotBytes 1 (Py.Bytes (Py.b "Z")); GotBytes 1 (Py.Bytes (Py.b "Q"));
                Wrote (Py.b "X"); Printed "Sync";
                GotLine (Py.Str "BASICv1"); Printed "BASICv1" ] |})) /\
  (forall (T : Type) (link : Transport T) (fuel : nat) (m : machine T),
      exists tr,
        trace (snd (handshake fuel m)) = trace m ++ tr /\
        ((writes tr = [] /\ forall line, fst (handshake fuel m) <> Returned line) \/
         (exists pre post,
             tr = Printed "waiting for sync" :: pre ++
                  GotBytes 1 (Py.Bytes (Py.b "Q")) :: Wrote (Py.b "X") :: post /\
             Forall before_sync pre /\ writes post = [] /\
             forall line, fst (handshake fuel m) = Returned line ->
                          post = [Printed "Sync"; GotLine line; Printed (Py.str line)]))).
Proof.
  split; [|split; [|split]].
  - intros k rest tr0. run_script.
  - intros k tr0. run_script.
  - intros k rest tr0. run_script.
  - intros T link fuel m.
    destruct (handshake fuel m) as [out m'] eqn:E.
    exact (handshake_run fuel m m' out E).
Qed.

(** ** Opening the port *)

(** C8.  With the timeout left off the command line the namespace holds 1,
    and that is the read timeout the port is opened with. *)
Theorem default_timeout_is_one_second (p : option string) :
  let args := parse_args {| given_port := p; given_timeout := None |} in
  let cfg := {| device := p; baudrate := 9600; read_timeout := 1;
                rtscts := false; xonxoff := false; dsrdtr := false |} in
  timeout args = 1%Z /\
  serial_settings args = cfg /\
  (forall (T : Type) (link : Transport T) (m : machine T),
      connect args m =
        Serial cfg {| ser := ser m;
                      trace := trace m ++ [Printed ("connecting to port " ++ show_port p)] |}) /\
  (forall (s : script) (tr0 : list event),
      connect args {| ser := s; trace := tr0 |} =
        (Returned tt,
         {| ser := s;
            trace := tr0 ++ [Printed ("connecting to port " ++ show_port p); Opened cfg] |})).
Proof.
  intros args cfg. repeat split.
  intros s tr0. unfold connect, Serial, bind, print, emit. simpl.
  now rewrite <- app_assoc.
Qed.

(** A timeout given on the command line is the one used. *)
Example given_timeout_is_used (p : option string) (t : Z) :
  read_timeout (serial_settings (parse_args {| given_port := p; given_timeout := Some t |})) = t.
Proof. reflexivity. Qed.

(** ** Fuel *)

(** Fuel only bounds the [while] loops: a run that has returned returns
    the same with more of it, and a silent port keeps both loops running
    whatever the fuel. *)

Section Fuel.

Context {T : Type} `{Transport T}.

Lemma sync_more_fuel (fuel k : nat) :
  forall (m m' : machine T),
    sync fuel m = (Returned tt, m') -> sync (fuel + k) m = (Returned tt, m').
Proof.
  induction fuel as [|fuel IH]; intros m m' E; [discriminate|].
  simpl in *. unfold bind in *.
  destruct (read 1 m) as [[o|e|] m1]; try discriminate.
  destruct (Py.eq_bytes o (Py.b "Q")); auto.
Qed.

Lemma await_more_fuel (fuel k : nat) :
  forall (m m' : machine T),
    await fuel m = (Returned tt, m') -> await (fuel + k) m = (Returned tt, m').
Proof.
  induction fuel as [|fuel IH]; intros m m' E; [discriminate|].
  simpl in *. unfold bind in *.
  destruct (poll m) as [[[]|e|] m1]; try discriminate; auto.
Qed.

Lemma exchange_more_fuel (fuel k : nat) (msg : Py.bytes) (m m' : machine T) :
  exchange fuel msg m = (Returned tt, m') ->
  exchange (fuel + k) msg m = (Returned tt, m').
Proof.
  unfold exchange, bind.
  destruct (print _ m) as [[[]|e|] m1]; try discriminate.
  destruct (write _ m1) as [[[]|e|] m2]; try discriminate.
  apply await_more_fuel.
Qed.

Lemma session_more_fuel (fuel k : nat) (messages : list Py.bytes) :
  forall (m m' : machine T),
    session fuel messages m = (Returned tt, m') ->
    session (fuel + k) messages m = (Returned tt, m').
Proof.
  induction messages as [|msg rest IH]; intros m m' E; [exact E|].
  simpl in *. unfold bind in *.
  destruct (exchange fuel msg m) as [[[]|e|] m1] eqn:X; try discriminate.
  rewrite (exchange_more_fuel fuel k msg m m1 X). auto.
Qed.

End Fuel.

Lemma await_silent (fuel : nat) :
  forall tr0 : list event,
    fst (await fuel {| ser := ([] : wire); trace := tr0 |}) = Unfinished.
Proof.
  induction fuel as [|fuel IH]; intros tr0; [reflexivity|].
  rewrite (await_retry fuel _ (Py.Bytes []) ([] : wire)) by reflexivity.
  apply IH.
Qed.

Lemma sync_silent (fuel : nat) :
  forall tr0 : list event,
    fst (sync fuel {| ser := ([] : wire); trace := tr0 |}) = Unfinished.
Proof.
  induction fuel as [|fuel IH]; intros tr0; [reflexivity|].
  simpl. unfold bind, read. simpl. apply IH.
Qed.

(** ** A whole run *)

(** The script against the obliging board, the timeout left off the
    command line: it returns, having read the whole wire, written X and
    then every message in order, and read the extension list and one line
    per message. *)
Example whole_run :
  let r := main 3 {| given_port := Some "COM2"%string; given_timeout := None |}
                (boot obliging_board) in
  fst r = Returned tt /\
  ser (snd r) = [] /\
  writes (trace (snd r)) = Py.b "X" :: map frame msgs /\
  List.length (lines_read (trace (snd r))) = 1 + List.length msgs.
Proof. vm_compute. repeat split. Qed.

(** * Further properties *)

(** ** The branches of the waiting loop *)

(** X1.  Each test of the [if]/[elif] chain decides its class on its own:
    a line is [Debug], [Error] or [Done] exactly when its own slice test
    holds, so no two tests hold of one line and the order of the branches
    does not matter. *)
Theorem branch_tests_are_exclusive (L : string) :
  (classify L = Debug <-> Py.upper (Py.slice 2 8 L) = "DEBUG:"%string) /\
  (classify L = Error <-> Py.upper (Py.slice 2 8 L) = "ERROR:"%string) /\
  (classify L = Done <-> Py.upper (Py.slice 2 7 L) = "DONE!"%string) /\
  (classify L = Unrecognized <->
     Py.upper (Py.slice 2 8 L) <> "DEBUG:"%string /\
     Py.upper (Py.slice 2 8 L) <> "ERROR:"%string /\
     Py.upper (Py.slice 2 7 L) <> "DONE!"%string).
Proof.
  pose proof (debug_window L) as HD.
  pose proof (error_window L) as HE.
  pose proof (done_window L) as HN.
  refine (conj _ (conj _ (conj _ _))); try (symmetry; assumption).
  destruct (classify L); intuition congruence.
Qed.

(** ** Lines read from a serial port *)

Lemma concat_cons (h : string) (t : list string) :
  String.concat "" (h :: t) = (h ++ String.concat "" t)%string.
Proof.
  destruct t as [|h' t]; simpl; auto.
  induction h as [|c h IH]; simpl; congruence.
Qed.

Lemma repr_byte_shape (q : ascii) (x : byte) :
  Py.repr_byte q x = String (ascii_of_byte x) "" \/
  exists s, Py.repr_byte q x = String Py.backslash s.
Proof.
  unfold Py.repr_byte.
  repeat match goal with
         | |- context [if ?c then _ else _] => destruct c
         end; eauto.
Qed.

Lemma tag_bytes_are_plain (x : byte) (q : ascii) :
  tagchar (Py.upper_char (ascii_of_byte x)) = true ->
  q = Py.squote \/ q = Py.dquote ->
  Py.repr_byte q x = String (ascii_of_byte x) "".
Proof.
  intros Ht [-> | ->]; destruct x; vm_compute in Ht; try discriminate Ht; reflexivity.
Qed.

Lemma repr_quote_cases (bs : Py.bytes) :
  Py.repr_quote bs = Py.squote \/ Py.repr_quote bs = Py.dquote.
Proof. unfold Py.repr_quote. destruct (_ && _); auto. Qed.

(** The window of a [repr] at position 2 reads the first bytes of the
    line, as long as the tag is made of tag characters. *)
Lemma repr_window (q : ascii) (tag : string) :
  q = Py.squote \/ q = Py.dquote ->
  forallb tagchar (list_ascii_of_string tag) = true ->
  forall bs,
    Py.upper (substring 0 (String.length tag)
                (String.concat "" (map (Py.repr_byte q) bs) ++ String q "")) = tag <->
    Py.upper (string_of_list_byte (firstn (String.length tag) bs)) = tag.
Proof.
  intros Hq. induction tag as [|c tag IH]; intros Ht bs.
  - simpl. split; intros _; [reflexivity|].
    now destruct (String.concat "" (map (Py.repr_byte q) bs) ++ String q "")%string.
  - simpl in Ht. apply andb_true_iff in Ht. destruct Ht as [Hc Ht].
    specialize (IH Ht).
    destruct bs as [|x bs].
    + simpl. split; intros E; [|discriminate].
      injection E as E _. exfalso. subst c.
      destruct Hq as [-> | ->]; vm_compute in Hc; discriminate.
    + rewrite map_cons, concat_cons.
      change (firstn (String.length (String c tag)) (x :: bs))
        with (x :: firstn (String.length tag) bs).
      change (string_of_list_byte (x :: firstn (String.length tag) bs))
        with (String (ascii_of_byte x)
                (string_of_list_byte (firstn (String.length tag) bs))).
      destruct (repr_byte_shape q x) as [-> | [s E]].
      * simpl. split; intros [= E1 E2]; f_equal; auto.
        -- now apply (IH bs).
        -- now apply (IH bs).
      * rewrite E. simpl. split; intros [= U V].
        -- exfalso. subst c. vm_compute in Hc. discriminate.
        -- exfalso. subst c.
           rewrite (tag_bytes_are_plain x q Hc Hq) in E.
           injection E as E _. rewrite E in Hc. vm_compute in Hc. discriminate.
Qed.

Lemma str_bytes_window (bs : Py.bytes) (tag : string) :
  forallb tagchar (list_ascii_of_string tag) = true ->
  Py.upper (Py.slice 2 (2 + String.length tag) (Py.str (Py.Bytes bs))) = tag <->
  begins tag bs.
Proof.
  intros Ht. unfold begins, Py.slice.
  replace (2 + String.length tag - 2) with (String.length tag) by lia.
  rewrite <- (repr_window (Py.repr_quote bs) tag (repr_quote_cases bs) Ht bs).
  reflexivity.
Qed.

(** X2.  A line read from the port as bytes is classified by how it
    begins: it is [Debug], [Error] or [Done] exactly when its first bytes
    are DEBUG:, ERROR: or DONE! in any case.  The two characters the slices
    skip are the [b'] of the printed form; whatever follows the tag is
    ignored, and a byte ahead of it, be it a space or a carriage return,
    leaves the line unrecognised. *)
Theorem bytes_line_class (bs : Py.bytes) :
  (classify (Py.str (Py.Bytes bs)) = Debug <-> begins "DEBUG:" bs) /\
  (classify (Py.str (Py.Bytes bs)) = Error <-> begins "ERROR:" bs) /\
  (classify (Py.str (Py.Bytes bs)) = Done <-> begins "DONE!" bs) /\
  (classify (Py.str (Py.Bytes bs)) = Unrecognized <->
     ~ begins "DEBUG:" bs /\ ~ begins "ERROR:" bs /\ ~ begins "DONE!" bs).
Proof.
  pose proof (str_bytes_window bs "DEBUG:" eq_refl) as HD.
  pose proof (str_bytes_window bs "ERROR:" eq_refl) as HE.
  pose proof (str_bytes_window bs "DONE!" eq_refl) as HN.
  change (2 + String.length "DEBUG:") with 8 in HD.
  change (2 + String.length "ERROR:") with 8 in HE.
  change (2 + String.length "DONE!") with 7 in HN.
  rewrite debug_window in HD. rewrite error_window in HE. rewrite done_window in HN.
  refine (conj _ (conj _ (conj _ _))); try assumption.
  destruct (classify (Py.str (Py.Bytes bs))); intuition congruence.
Qed.

(** ** Sessions, message by message *)

Section Composition.

Context {T : Type} `{Transport T}.

(** X3.  The loop carries nothing from one message to the next but the
    port: a session over two lists of messages laid end to end is the
    session over the first followed by the session over the second.  When
    the first part returns, the second starts from the machine it left;
    when it raises or is still waiting, nothing of the second part
    happens. *)
Theorem session_app (fuel : nat) (first second : list Py.bytes) (m : machine T) :
  session fuel (first ++ second) m =
    (session fuel first;; session fuel second) m /\
  (forall m1, session fuel first m = (Returned tt, m1) ->
              session fuel (first ++ second) m = session fuel second m1) /\
  (forall m1 e, session fuel first m = (Raised e, m1) ->
                session fuel (first ++ second) m = (Raised e, m1)) /\
  (forall m1, session fuel first m = (Unfinished, m1) ->
              session fuel (first ++ second) m = (Unfinished, m1)).
Proof.
  assert (E : forall m0, session fuel (first ++ second) m0 =
                         (session fuel first;; session fuel second) m0).
  { induction first as [|msg rest IH]; intros m0; [reflexivity|].
    simpl. unfold bind in *.
    destruct (exchange fuel msg m0) as [[[]|e|] m1]; auto. }
  split; [apply E|].
  repeat split; intros; rewrite E; unfold bind;
    match goal with R : session fuel first m = _ |- _ => now rewrite R end.
Qed.

(** Whatever holds of the pieces a session writes to its trace, and is
    kept when traces are laid end to end, holds of what a session adds to
    the trace. *)
Section Invariant.

Variable P : list event -> Prop.

Hypothesis P_nil : P [].
Hypothesis P_app : forall a b, P a -> P b -> P (a ++ b).
Hypothesis P_heard : forall o, P (heard o).
Hypothesis P_announce : forall msg, P [Printed ("Write: " ++ Py.str (Py.Bytes msg))].
Hypothesis P_write : forall msg, P [Wrote (frame msg)].

Lemma await_invariant (fuel : nat) :
  forall m : machine T, exists tr, trace (snd (await fuel m)) = trace m ++ tr /\ P tr.
Proof.
  induction fuel as [|fuel IH]; intros m.
  - exists []. simpl. now rewrite app_nil_r.
  - destruct (ser_readline (ser m)) as [[e|o] p] eqn:R.
    + rewrite (await_fault fuel m e p R). exists []. simpl. now rewrite app_nil_r.
    + rewrite (await_step fuel m o p R).
      destruct (terminal (classify (Py.str o))).
      * exists (heard o). split; auto.
      * destruct (IH {| ser := p; trace := trace m ++ heard o |}) as (tr & E & Htr).
        exists (heard o ++ tr). rewrite E. simpl. rewrite app_assoc. auto.
Qed.

Lemma exchange_invariant (fuel : nat) (msg : Py.bytes) (m : machine T) :
  exists tr, trace (snd (exchange fuel msg m)) = trace m ++ tr /\ P tr.
Proof.
  unfold exchange, bind, print, write, emit. cbn [ser trace].
  destruct (ser_write (msg ++ [Py.newline]) (ser m)) as [[e|[]] p].
  - exists [Printed ("Write: " ++ Py.str (Py.Bytes msg))].
    split; [reflexivity | apply P_announce].
  - match goal with |- context [await fuel ?m0] =>
      destruct (await_invariant fuel m0) as (tr & E & Htr) end.
    exists ([Printed ("Write: " ++ Py.str (Py.Bytes msg))] ++ [Wrote (frame msg)] ++ tr).
    split.
    + etransitivity; [exact E|]. cbn [trace]. now rewrite <- !app_assoc.
    + apply P_app; [apply P_announce|]. apply P_app; [apply P_write|exact Htr].
Qed.

Lemma session_invariant (fuel : nat) (messages : list Py.bytes) :
  forall m : machine T,
    exists tr, trace (snd (session fuel messages m)) = trace m ++ tr /\ P tr.
Proof.
  induction messages as [|msg rest IH]; intros m.
  - exists []. simpl. now rewrite app_nil_r.
  - simpl. unfold bind.
    destruct (exchange_invariant fuel msg m) as (tr1 & E1 & H1).
    destruct (exchange fuel msg m) as [[[]|e|] m1]; simpl in E1; eauto.
    destruct (IH m1) as (tr2 & E2 & H2).
    exists (tr1 ++ tr2). rewrite E2, E1, app_assoc. auto.
Qed.

End Invariant.

End Composition.

Lemma echoes_app (a b : list event) : echoes (a ++ b) = echoes a ++ echoes b.
Proof. unfold echoes. now rewrite stdout_app, filter_app. Qed.

Lemma echo_due_app (a b : list event) : echo_due (a ++ b) = echo_due a ++ echo_due b.
Proof. apply flat_map_app. Qed.

Lemma echo_is_kept (s : string) : String.prefix "Read:  " ("Read:  " ++ s) = true.
Proof. simpl. now destruct s. Qed.

Lemma heard_echo (o : Py.obj) : echoes (heard o) = echo_due (heard o).
Proof.
  unfold heard, echoes, echo_due.
  destruct (classify (Py.str o)) eqn:C; cbn [stdout flat_map app filter];
    rewrite C; try reflexivity; now rewrite echo_is_kept.
Qed.

(** X4.  Over a whole session the lines printed after Read: are the
    [Debug] and [Error] lines read, each once and in the order read; no
    DONE! line, unrecognised line or timeout is ever echoed, whatever the
    port does and however the session ends. *)
Theorem session_echoes_debug_and_error
        (T : Type) (link : Transport T) (fuel : nat)
        (messages : list Py.bytes) (m : machine T) :
  exists tr,
    trace (snd (session fuel messages m)) = trace m ++ tr /\
    echoes tr = echo_due tr.
Proof.
  apply (session_invariant (fun tr => echoes tr = echo_due tr)).
  - reflexivity.
  - intros a b Ha Hb. now rewrite echoes_app, echo_due_app, Ha, Hb.
  - apply heard_echo.
  - intros msg. reflexivity.
  - intros msg. reflexivity.
Qed.

(** ** A message left unanswered *)

Lemma await_unanswered (fuel : nat) :
  forall (rs : list Py.obj) (tr0 : list event),
    Forall (fun o => terminal (classify (Py.str o)) = false) rs ->
    fst (await fuel {| ser := replying rs; trace := tr0 |}) = Unfinished.
Proof.
  induction fuel as [|fuel IH]; intros rs tr0 Hrs; [reflexivity|].
  destruct Hrs as [|o rs Ho Hrs].
  - rewrite (await_retry fuel _ (Py.Bytes []) (replying [])) by reflexivity.
    apply IH. constructor.
  - rewrite (await_retry fuel _ o (replying rs)) by (reflexivity || exact Ho).
    now apply IH.
Qed.

(** X5.  A message that gets no [Error] and no [Done] line holds the
    session for good: whatever else the port says, and then its silence,
    only keeps the loop reading, so the session is still waiting after any
    number of reads and none of the later messages is written. *)
Theorem unanswered_message_blocks_session
        (fuel : nat) (msg : Py.bytes) (later : list Py.bytes) (rs : list Py.obj) :
  Forall (fun o => terminal (classify (Py.str o)) = false) rs ->
  fst (session fuel (msg :: later) (boot (replying rs))) = Unfinished /\
  writes (trace (snd (session fuel (msg :: later) (boot (replying rs))))) =
    [msg ++ [Py.newline]].
Proof.
  intros Hrs. simpl. unfold bind at 1.
  unfold exchange, bind, print, write, emit, boot. cbn [ser trace ser_write scripted].
  match goal with |- context [await fuel ?m0] =>
    pose proof (await_unanswered fuel rs (trace m0) Hrs) as U;
    change {| ser := replying rs; trace := trace m0 |} with m0 in U;
    destruct (await fuel m0) as [out m'] eqn:A
  end.
  simpl in U. subst out. split; [reflexivity|].
  apply await_run in A. destruct A as (tr & E & Hw & _).
  cbn [snd]. rewrite E. cbn [trace]. rewrite writes_app, Hw. reflexivity.
Qed.

Lemma unanswered_message_blocks_session_witness :
  fst (session 5 [Py.b "A-1"; Py.b "B-2"]
               (boot (replying [Py.Str "xxDEBUG: busy"; Py.Bytes []]))) = Unfinished /\
  writes (trace (snd (session 5 [Py.b "A-1"; Py.b "B-2"]
                        (boot (replying [Py.Str "xxDEBUG: busy"; Py.Bytes []]))))) =
    [Py.b "A-1" ++ [Py.newline]].
Proof.
  apply (unanswered_message_blocks_session 5 (Py.b "A-1") [Py.b "B-2"]
           [Py.Str "xxDEBUG: busy"; Py.Bytes []]).
  repeat constructor.
Defined.

(** ** The handshake on a noisy wire *)

Lemma sync_through_noise (pre : wire) :
  forall (k : nat) (rest : wire) (tr0 : list event),
    Forall noise pre ->
    sync (S (List.length pre) + k) {| ser := pre ++ Recv "Q"%byte :: rest; trace := tr0 |} =
      (Returned tt,
       {| ser := rest;
          trace := tr0 ++ map seen pre ++ [GotBytes 1 (Py.Bytes (Py.b "Q"))] |}).
Proof.
  induction pre as [|s pre IH]; intros k rest tr0 Hpre.
  - reflexivity.
  - inversion Hpre as [|? ? [NQ NU] Hpre']; subst.
    change (S (List.length (s :: pre)) + k) with (S (S (List.length pre) + k)).
    cbn [sync]. unfold bind at 1, read. cbn [ser trace ser_read pyserial app].
    destruct s as [x| |]; [| |congruence].
    + cbn [wire_read more as_obj].
      assert (Py.eq_bytes (Py.Bytes [x]) (Py.b "Q") = false) as ->.
      { unfold Py.eq_bytes.
        destruct (list_eq_dec Byte.byte_eq_dec [x] (Py.b "Q")) as [E|]; auto.
        injection E as ->. congruence. }
      unfold emit. cbn [ser trace]. rewrite IH by assumption.
      cbn [map seen]. now rewrite <- app_assoc.
    + cbn [wire_read as_obj]. cbn [Py.eq_bytes].
      change (if list_eq_dec Byte.byte_eq_dec [] (Py.b "Q") then true else false)
        with false.
      unfold emit. cbn [ser trace]. rewrite IH by assumption.
      cbn [map seen]. now rewrite <- app_assoc.
Qed.

Lemma wire_write_after_line (out : Py.bytes) (w : wire) (bs : Py.bytes) (w' : wire) :
  wire_readline w = (inr bs, w') -> wire_write out w = (inr tt, w).
Proof. destruct w as [|[x| |] w]; simpl; auto; discriminate. Qed.

(** X6.  The handshake reads past whatever comes ahead of the sentinel,
    byte by byte: other bytes (a lower-case q among them) and read
    timeouts alike are dropped, one read each.  It stops at the first Q,
    writes X once, and the line it returns is read from what follows that
    Q on the wire. *)
Theorem handshake_skips_noise
        (pre rest rest' : wire) (bs : Py.bytes) (k : nat) (tr0 : list event) :
  Forall noise pre ->
  wire_readline rest = (inr bs, rest') ->
  handshake (S (List.length pre) + k)
    {| ser := pre ++ Recv "Q"%byte :: rest; trace := tr0 |} =
    (Returned (Py.Bytes bs),
     {| ser := rest';
        trace := tr0 ++ Printed "waiting for sync" :: map seen pre ++
                 [ GotBytes 1 (Py.Bytes (Py.b "Q")); Wrote (Py.b "X"); Printed "Sync";
                   GotLine (Py.Bytes bs); Printed (Py.str (Py.Bytes bs)) ] |}).
Proof.
  intros Hpre Hline.
  unfold handshake, bind at 1, print at 1, emit. cbn [ser trace].
  unfold bind at 1. rewrite sync_through_noise by assumption.
  unfold bind, write, print, readline, emit.
  cbn [ser trace ser_write ser_readline pyserial].
  rewrite (wire_write_after_line (Py.b "X") rest bs rest' Hline).
  cbn [ser trace]. rewrite Hline. cbn [as_obj].
  unfold ret. cbn [ser trace].
  repeat (rewrite <- app_assoc; cbn [app]). reflexivity.
Qed.

Lemma handshake_skips_noise_witness :
  handshake 5 (boot (sends "xq" ++ Quiet :: Recv "Q"%byte :: sends "BASIC" ++ [Recv Py.newline])) =
    (Returned (Py.Bytes (Py.b "BASIC" ++ [Py.newline])),
     {| ser := [];
        trace := [] ++ Printed "waiting for sync" :: map seen (sends "xq" ++ [Quiet]) ++
                 [ GotBytes 1 (Py.Bytes (Py.b "Q")); Wrote (Py.b "X"); Printed "Sync";
                   GotLine (Py.Bytes (Py.b "BASIC" ++ [Py.newline]));
                   Printed (Py.str (Py.Bytes (Py.b "BASIC" ++ [Py.newline]))) ] |}).
Proof.
  apply (handshake_skips_noise (sends "xq" ++ [Quiet])
           (sends "BASIC" ++ [Recv Py.newline]) [] (Py.b "BASIC" ++ [Py.newline]) 1 []).
  - repeat constructor; discriminate.
  - reflexivity.
Defined.

(** ** The whole script *)

Section Whole.

Context {T : Type} `{Transport T}.

Lemma connect_opened (args : Namespace) (m : machine T) (p : T) :
  ser_open (serial_settings args) (ser m) = (inr tt, p) ->
  connect args m =
    (Returned tt,
     {| ser := p;
        trace := trace m ++ [ Printed ("connecting to port " ++ show_port (port args));
                              Opened (serial_settings args) ] |}).
Proof.
  intros O. unfold connect, bind, print, Serial, emit. cbn [ser trace].
  rewrite O. now rewrite <- app_assoc.
Qed.

Lemma connect_failed (args : Namespace) (m : machine T) (e : exn) (p : T) :
  ser_open (serial_settings args) (ser m) = (inl e, p) ->
  connect args m =
    (Raised e,
     {| ser := p;
        trace := trace m ++ [Printed ("connecting to port " ++ show_port (port args))] |}).
Proof.
  intros O. unfold connect, bind, print, Serial, emit. cbn [ser trace].
  now rewrite O.
Qed.

Lemma handshake_writes (fuel : nat) (m m' : machine T) (out : outcome Py.obj) :
  handshake fuel m = (out, m') ->
  exists tr,
    trace m' = trace m ++ tr /\
    (writes tr = [] \/ writes tr = [Py.b "X"]) /\
    ((exists line, out = Returned line) -> writes tr = [Py.b "X"]).
Proof.
  intros E. apply handshake_run in E.
  destruct E as (tr & E & [[Hw N]|(pre & post & -> & Hpre & Hpost & _)]).
  - exists tr. repeat split; auto. intros [line ->]. now contradiction (N line).
  - assert (W : writes (Printed "waiting for sync" :: pre ++
                        GotBytes 1 (Py.Bytes (Py.b "Q")) :: Wrote (Py.b "X") :: post) =
                [Py.b "X"]).
    { change (writes (pre ++ GotBytes 1 (Py.Bytes (Py.b "Q")) :: Wrote (Py.b "X") :: post) =
              [Py.b "X"]).
      rewrite writes_app, (before_sync_writes pre Hpre).
      change (Py.b "X" :: writes post = [Py.b "X"]). now rewrite Hpost. }
    eexists. repeat split; eauto.
Qed.

Lemma main_run (fuel : nat) (c : cmdline) (m m' : machine T) (out : outcome unit) :
  main fuel c m = (out, m') ->
  exists tr,
    trace m' = trace m ++
               Printed ("connecting to port " ++ show_port (given_port c)) :: tr /\
    (tr = [] \/ exists tr', tr = Opened (serial_settings (parse_args c)) :: tr') /\
    (exists k, writes tr = firstn k (Py.b "X" :: map frame msgs)) /\
    (out = Returned tt -> writes tr = Py.b "X" :: map frame msgs).
Proof.
  unfold main. unfold bind at 1.
  destruct (ser_open (serial_settings (parse_args c)) (ser m)) as [[e|[]] p] eqn:O.
  - rewrite (connect_failed _ m e p O). intros [= <- <-].
    exists []. cbn [trace]. repeat split; auto; try discriminate. now exists 0.
  - rewrite (connect_opened _ m p O). unfold bind at 1.
    destruct (handshake fuel _) as [oh m2] eqn:Hh.
    apply handshake_writes in Hh. destruct Hh as (trh & Eh & Hw & Hr). cbn [trace] in Eh.
    assert (Ehead : forall rest,
               (trace m ++ [ Printed ("connecting to port " ++ show_port (port (parse_args c)));
                             Opened (serial_settings (parse_args c)) ]) ++ rest =
               trace m ++ Printed ("connecting to port " ++ show_port (given_port c))
                 :: Opened (serial_settings (parse_args c)) :: rest).
    { intros rest. now rewrite <- app_assoc. }
    destruct oh as [line|e|].
    + intros S. apply session_run in S.
      destruct S as (trs & Es & (k & Hk) & _ & Hs).
      assert (W : writes (Opened (serial_settings (parse_args c)) :: trh ++ trs) =
                  Py.b "X" :: writes trs).
      { change (writes (trh ++ trs) = Py.b "X" :: writes trs).
        rewrite writes_app, (Hr (ex_intro _ line eq_refl)). reflexivity. }
      exists (Opened (serial_settings (parse_args c)) :: trh ++ trs).
      split; [|split; [|split]].
      * rewrite Es, Eh, <- app_assoc. apply Ehead.
      * right. eauto.
      * exists (S k). rewrite W, Hk. reflexivity.
      * intros Hout. destruct (Hs Hout) as [Hws _]. rewrite W, Hws. reflexivity.
    + intros [= <- <-].
      exists (Opened (serial_settings (parse_args c)) :: trh).
      split; [|split; [|split]]; try discriminate.
      * rewrite Eh. apply Ehead.
      * right. eauto.
      * change (exists k, writes trh = firstn k (Py.b "X" :: map frame msgs)).
        destruct Hw as [-> | ->]; [now exists 0 | now exists 1].
    + intros [= <- <-].
      exists (Opened (serial_settings (parse_args c)) :: trh).
      split; [|split; [|split]]; try discriminate.
      * rewrite Eh. apply Ehead.
      * right. eauto.
      * change (exists k, writes trh = firstn k (Py.b "X" :: map frame msgs)).
        destruct Hw as [-> | ->]; [now exists 0 | now exists 1].
Qed.

End Whole.

(** X7.  The order of the whole script, on any port and however the run
    ends: the first thing it does is announce the port, the first thing it
    does with the port is open it with the settings of the command line,
    and what it writes is a beginning of the list made of the byte X and
    then every message with its newline.  So no message is sent ahead of
    the handshake's X, and a run that returns has sent X and all the
    messages. *)
Theorem main_write_order
        (T : Type) (link : Transport T) (fuel : nat) (c : cmdline) (m : machine T) :
  exists tr,
    trace (snd (main fuel c m)) =
      trace m ++ Printed ("connecting to port " ++ show_port (given_port c)) :: tr /\
    (tr = [] \/ exists tr', tr = Opened (serial_settings (parse_args c)) :: tr') /\
    (exists k, writes tr = firstn k (Py.b "X" :: map frame msgs)) /\
    (fst (main fuel c m) = Returned tt -> writes tr = Py.b "X" :: map frame msgs).
Proof.
  destruct (main fuel c m) as [out m'] eqn:E.
  exact (main_run fuel c m m' out E).
Qed.

(** ** A board that never sends the sentinel *)

Lemma sync_without_sentinel (fuel : nat) :
  forall (w : wire) (tr0 : list event) (u : unit),
    Forall (fun s => s <> Recv "Q"%byte) w ->
    fst (sync fuel {| ser := w; trace := tr0 |}) <> Returned u.
Proof.
  induction fuel as [|fuel IH]; intros w tr0 u Hw; [discriminate|].
  cbn [sync]. unfold bind, read. cbn [ser trace ser_read pyserial].
  destruct Hw as [|s w Hs Hw].
  - cbn [wire_read as_obj]. cbn [Py.eq_bytes].
    change (if list_eq_dec Byte.byte_eq_dec [] (Py.b "Q") then true else false)
      with false.
    apply IH. constructor.
  - destruct s as [x| |].
    + cbn [wire_read more as_obj].
      assert (Py.eq_bytes (Py.Bytes [x]) (Py.b "Q") = false) as ->.
      { unfold Py.eq_bytes.
        destruct (list_eq_dec Byte.byte_eq_dec [x] (Py.b "Q")) as [E|]; auto.
        injection E as ->. congruence. }
      now apply IH.
    + cbn [wire_read as_obj]. cbn [Py.eq_bytes].
      change (if list_eq_dec Byte.byte_eq_dec [] (Py.b "Q") then true else false)
        with false.
      now apply IH.
    + discriminate.
Qed.

Lemma stuck_at_handshake (fuel : nat) (w : wire) (tr0 : list event) :
  Forall (fun s => s <> Recv "Q"%byte) w ->
  writes tr0 = [] ->
  fst ((handshake fuel;; session fuel msgs) {| ser := w; trace := tr0 |}) <> Returned tt /\
  writes (trace (snd ((handshake fuel;; session fuel msgs)
                        {| ser := w; trace := tr0 |}))) = [].
Proof.
  intros Hw H0.
  destruct ((handshake fuel;; session fuel msgs) {| ser := w; trace := tr0 |})
    as [out mf] eqn:M. cbn [fst snd].
  unfold bind at 1, handshake, bind at 1, print at 1, emit in M. cbn [ser trace] in M.
  unfold bind at 1 in M.
  match type of M with context [sync fuel ?m0] =>
    pose proof (sync_without_sentinel fuel w (trace m0) tt Hw) as N;
    change {| ser := w; trace := trace m0 |} with m0 in N;
    destruct (sync fuel m0) as [[[]|e|] m'] eqn:S
  end; [now contradiction N | |];
    injection M as <- <-;
    apply sync_run in S; destruct S as (pre & Hpre & E);
    (split; [discriminate|]);
    rewrite E; cbn [trace];
    rewrite !writes_app, H0, (before_sync_writes pre Hpre); reflexivity.
Qed.

Lemma wire_open_cases (cfg : settings) (w p : wire) :
  wire_open cfg w = (inr tt, p) -> p = w \/ p = Unplugged :: w.
Proof.
  unfold wire_open.
  destruct (read_timeout cfg <? 0)%Z; [discriminate|].
  destruct (device cfg); [destruct (select_limit <? read_timeout cfg)%Z|];
    intros [= <-]; auto.
Qed.

(** X8.  Without the sentinel nothing is ever sent.  On a wire that never
    carries the byte Q, whatever else it carries and however long the
    script is left running, the script does not get past the handshake: it
    never returns, and it writes neither the X nor any message. *)
Theorem no_sentinel_no_write (w : wire) (fuel : nat) (c : cmdline) :
  Forall (fun s => s <> Recv "Q"%byte) w ->
  fst (main fuel c (boot w)) <> Returned tt /\
  writes (trace (snd (main fuel c (boot w)))) = [].
Proof.
  intros Hw. unfold main. unfold bind at 1 3.
  destruct (ser_open (serial_settings (parse_args c)) (ser (boot w)))
    as [[e|[]] p] eqn:O.
  - rewrite (connect_failed (parse_args c) (boot w) e p O).
    split; [discriminate | reflexivity].
  - rewrite (connect_opened (parse_args c) (boot w) p O).
    apply stuck_at_handshake; [|reflexivity].
    destruct (wire_open_cases _ _ _ O) as [-> | ->]; auto.
    constructor; [discriminate | exact Hw].
Qed.

Lemma no_sentinel_no_write_witness :
  fst (main 9 {| given_port := None; given_timeout := Some 2%Z |}
            (boot (sends "hello q" ++ [Quiet]))) <> Returned tt /\
  writes (trace (snd (main 9 {| given_port := None; given_timeout := Some 2%Z |}
                           (boot (sends "hello q" ++ [Quiet]))))) = [].
Proof.
  apply (no_sentinel_no_write (sends "hello q" ++ [Quiet]) 9).
  repeat constructor; discriminate.
Defined.

(** ** Replies on a serial wire *)

Lemma wire_readline_line (body : Py.bytes) :
  forall rest : wire,
    Forall (fun x => x <> Py.newline) body ->
    wire_readline (map Recv body ++ Recv Py.newline :: rest) =
      (inr (body ++ [Py.newline]), rest).
Proof.
  induction body as [|x body IH]; intros rest Hb.
  - reflexivity.
  - inversion Hb as [|? ? Hx Hb']; subst.
    cbn [map app wire_readline].
    destruct (Byte.eqb x Py.newline) eqn:E.
    + apply Byte.byte_dec_bl in E. contradiction.
    + rewrite IH by assumption. reflexivity.
Qed.

Lemma begins_class (bs : Py.bytes) :
  (begins "ERROR:" bs -> classify (Py.str (Py.Bytes bs)) = Error) /\
  (begins "DONE!" bs -> classify (Py.str (Py.Bytes bs)) = Done).
Proof.
  split; intros B.
  - apply error_window.
    now apply (str_bytes_window bs "ERROR:" eq_refl).
  - apply done_window.
    now apply (str_bytes_window bs "DONE!" eq_refl).
Qed.

(** X9.  What the board has to send to be understood.  A line of bytes
    ending in a newline that begins with DONE!, in any case, answers the
    message in flight: the exchange reads that one line, prints nothing
    for it, and returns with the rest of the wire unread.  One that begins
    with ERROR: does the same and is echoed after Read:, the newline shown
    as a backslash and an n. *)
Theorem reply_on_the_wire
        (body : Py.bytes) (k : nat) (msg : Py.bytes) (rest : wire) (tr0 : list event) :
  Forall (fun x => x <> Py.newline) body ->
  (begins "DONE!" (body ++ [Py.newline]) ->
   exchange (S k) msg {| ser := map Recv body ++ Recv Py.newline :: rest; trace := tr0 |} =
     (Returned tt,
      {| ser := rest;
         trace := tr0 ++ [ Printed ("Write: " ++ Py.str (Py.Bytes msg));
                           Wrote (msg ++ [Py.newline]);
                           GotLine (Py.Bytes (body ++ [Py.newline])) ] |})) /\
  (begins "ERROR:" (body ++ [Py.newline]) ->
   exchange (S k) msg {| ser := map Recv body ++ Recv Py.newline :: rest; trace := tr0 |} =
     (Returned tt,
      {| ser := rest;
         trace := tr0 ++ [ Printed ("Write: " ++ Py.str (Py.Bytes msg));
                           Wrote (msg ++ [Py.newline]);
                           GotLine (Py.Bytes (body ++ [Py.newline]));
                           Printed ("Read:  " ++ Py.str (Py.Bytes (body ++ [Py.newline]))) ] |})).
Proof.
  intros Hb.
  assert (X : forall c, classify (Py.str (Py.Bytes (body ++ [Py.newline]))) = c ->
                        terminal c = true ->
      exchange (S k) msg {| ser := map Recv body ++ Recv Py.newline :: rest; trace := tr0 |} =
        (Returned tt,
         {| ser := rest;
            trace := tr0 ++ Printed ("Write: " ++ Py.str (Py.Bytes msg))
                       :: Wrote (msg ++ [Py.newline])
                       :: heard (Py.Bytes (body ++ [Py.newline])) |})).
  { intros c C Ht.
    unfold exchange, bind, print, write, emit. cbn [ser trace ser_write pyserial].
    assert (wire_write (msg ++ [Py.newline]) (map Recv body ++ Recv Py.newline :: rest) =
            (inr tt, map Recv body ++ Recv Py.newline :: rest)) as -> by now destruct body.
    rewrite (await_terminal k _ (Py.Bytes (body ++ [Py.newline])) rest).
    - cbn [trace]. now rewrite <- !app_assoc.
    - cbn [ser ser_readline pyserial]. now rewrite wire_readline_line.
    - now rewrite C. }
  destruct (begins_class (body ++ [Py.newline])) as [HE HN].
  split; intros B.
  - rewrite (X Done (HN B) eq_refl). unfold heard. now rewrite (HN B).
  - rewrite (X Error (HE B) eq_refl). unfold heard. now rewrite (HE B).
Qed.

Lemma reply_on_the_wire_witness :
  exchange 1 (Py.b "S-GF57XWD-1")
    {| ser := map Recv (Py.b "done! ok") ++ Recv Py.newline :: sends "next"; trace := [] |} =
    (Returned tt,
     {| ser := sends "next";
        trace := [] ++ [ Printed ("Write: " ++ Py.str (Py.Bytes (Py.b "S-GF57XWD-1")));
                         Wrote (Py.b "S-GF57XWD-1" ++ [Py.newline]);
                         GotLine (Py.Bytes (Py.b "done! ok" ++ [Py.newline])) ] |}).
Proof.
  apply (reply_on_the_wire (Py.b "done! ok") 0 (Py.b "S-GF57XWD-1") (sends "next") []).
  - repeat constructor; discriminate.
  - reflexivity.
Defined.
